(** * Epidemic simulation (SIR model): the state-transition engine

    A shallow embedding of [epidemic_simulation.py]: the agents, the
    quarantine zones, the statistics aggregator and the tick of
    [EpidemicSimulation], followed by the properties of the engine.

    Conventions of the embedding.
    - Python [int] is [Z]; Python [float] is read as an exact rational [Q].
      Rounding is left out where a float is only compared or stored.  It
      decides the result where a float product is truncated by [int()]
      (in [reset_simulation]); that product is the [float_mul] of the
      interface [MathLib], whatever its rounding.
    - The [random] module is an explicit supply of draws threaded through
      every call that consumes randomness ([Rand] below).
    - [math.pi], [math.cos], [math.sin], the square root behind
      [Vector2.length] and the rounded float product are taken as an
      interface ([MathLib]).
    - Objects mutated in place (agents held in [self.agents]) live in a
      list that is updated by index; [id(agent)] is the field [aid].
    - A call that can raise returns an [outcome] next to the state it
      leaves behind. *)

From Stdlib Require Import ZArith QArith Qround Lia Lqa.
From stdpp Require Import base option list gmap.

Local Open Scope Z_scope.

(** ** Numbers *)

Definition Qltb (x y : Q) : bool := negb (Qle_bool y x).
Definition Qgtb (x y : Q) : bool := Qltb y x.
Definition Qmax (x y : Q) : Q := if Qltb x y then y else x.
Definition Qmin (x y : Q) : Q := if Qltb y x then y else x.

(** Python's [int(x)] on a float: truncation toward zero. *)
Definition py_int (x : Q) : Z := Z.quot (Qnum x) (Zpos (Qden x)).

(** ** Exceptions *)

Inductive exn := ValueError | ZeroDivisionError.

Inductive outcome (A : Type) :=
| Returned (a : A)
| Raised (e : exn).
Arguments Returned {A} a.
Arguments Raised {A} e.

(** Python's [a / b] on two ints. *)
Definition truediv (a b : Z) : outcome Q :=
  if b =? 0 then Raised ZeroDivisionError else Returned (inject_Z a / inject_Z b)%Q.

(** ** The [random] module as a supply of draws *)

Record Rng := { rng_draws : nat -> Q; rng_pos : nat }.

Definition Rand (A : Type) : Type := Rng -> A * Rng.

#[global] Instance rand_ret : MRet Rand := fun A a g => (a, g).
#[global] Instance rand_bind : MBind Rand :=
  fun A B f c g => let '(a, g') := c g in f a g'.

(** [random.random()] *)
Definition random : Rand Q :=
  fun g => (rng_draws g (rng_pos g),
            {| rng_draws := rng_draws g; rng_pos := S (rng_pos g) |}).

(** [random.uniform(a, b)] is [a + (b - a) * random()]. *)
Definition uniform (a b : Q) : Rand Q :=
  r ← random; mret (a + (b - a) * r)%Q.

(** An index below [n], as [random.choice] and [random.sample] draw it:
    [floor(r * n)] for a draw [r] of the unit interval; the bound keeps the
    index in range for a supply whose draws leave that interval. *)
Definition randbelow (n : nat) : Rand nat :=
  r ← random;
  mret (Nat.min (Z.to_nat (Qfloor (r * inject_Z (Z.of_nat n)))) (n - 1)).

(** ** Mathematical functions and float arithmetic

    [float_mul x y] is the product of two floats as the machine rounds
    it. *)

Class MathLib := {
  math_pi : Q;
  math_cos : Q -> Q;
  math_sin : Q -> Q;
  math_sqrt : Q -> Q;
  float_mul : Q -> Q -> Q
}.

(** ** Screen dimensions and simulation parameters *)

Definition WIDTH : Q := 1200.
Definition HEIGHT : Q := 700.
Definition GRAPH_HEIGHT : Q := 250.

Definition INITIAL_POPULATION : Z := 200.
Definition INITIAL_INFECTED : Z := 5.
Definition INFECTION_RADIUS : Q := 15.
Definition BASE_INFECTION_PROB : Q := 2 # 100.
Definition RECOVERY_TIME : Z := 300.
Definition RECOVERY_PROB : Q := 7 # 10.
Definition VACCINATION_RATE : Q := 3 # 10.
Definition VACCINATION_SUCCESS_RATE : Q := 9 # 10.
Definition MOVEMENT_SPEED : Q := 2.

(** ** pygame.math.Vector2 *)

Record Vector2 := { vx : Q; vy : Q }.

Definition vadd (u v : Vector2) : Vector2 :=
  {| vx := vx u + vx v; vy := vy u + vy v |}%Q.
Definition vsub (u v : Vector2) : Vector2 :=
  {| vx := vx u - vx v; vy := vy u - vy v |}%Q.
Definition vscale (u : Vector2) (k : Q) : Vector2 :=
  {| vx := vx u * k; vy := vy u * k |}%Q.

(** Truth value of a vector: false only for the zero vector. *)
Definition vbool (u : Vector2) : bool :=
  negb (Qeq_bool (vx u) 0 && Qeq_bool (vy u) 0).

Section Vectors.
Context `{MathLib}.

Definition vlength (u : Vector2) : Q :=
  math_sqrt (vx u * vx u + vy u * vy u)%Q.

Definition distance_to (u v : Vector2) : Q := vlength (vsub v u).

(** [normalize] raises [ValueError] on a vector of length zero. *)
Definition normalize (u : Vector2) : outcome Vector2 :=
  let l := vlength u in
  if Qeq_bool l 0 then Raised ValueError
  else Returned {| vx := vx u / l; vy := vy u / l |}%Q.

(** The heading drawn by [angle = uniform(0, 2*pi)]. *)
Definition random_heading : Rand Vector2 :=
  angle ← uniform 0 (2 * math_pi)%Q;
  mret {| vx := math_cos angle; vy := math_sin angle |}.
End Vectors.

(** ** Agents *)

Inductive AgentState := SUSCEPTIBLE | INFECTED | RECOVERED | IMMUNE.

#[global] Instance AgentState_eq_dec : EqDecision AgentState.
Proof. solve_decision. Defined.

Record Agent := {
  aid : nat;                          (* id(self) *)
  position : Vector2;
  velocity : Vector2;
  speed : Q;
  state : AgentState;
  infection_time : Z;
  contact_time : gmap nat Z;
  in_quarantine : bool;
  quarantine_position : option Vector2
}.

Definition set_position (a : Agent) (p : Vector2) : Agent :=
  {| aid := aid a; position := p; velocity := velocity a; speed := speed a;
     state := state a; infection_time := infection_time a;
     contact_time := contact_time a; in_quarantine := in_quarantine a;
     quarantine_position := quarantine_position a |}.
Definition set_velocity (a : Agent) (v : Vector2) : Agent :=
  {| aid := aid a; position := position a; velocity := v; speed := speed a;
     state := state a; infection_time := infection_time a;
     contact_time := contact_time a; in_quarantine := in_quarantine a;
     quarantine_position := quarantine_position a |}.
Definition set_state (a : Agent) (s : AgentState) : Agent :=
  {| aid := aid a; position := position a; velocity := velocity a; speed := speed a;
     state := s; infection_time := infection_time a;
     contact_time := contact_time a; in_quarantine := in_quarantine a;
     quarantine_position := quarantine_position a |}.
Definition set_infection_time (a : Agent) (t : Z) : Agent :=
  {| aid := aid a; position := position a; velocity := velocity a; speed := speed a;
     state := state a; infection_time := t;
     contact_time := contact_time a; in_quarantine := in_quarantine a;
     quarantine_position := quarantine_position a |}.
Definition set_contact_time (a : Agent) (c : gmap nat Z) : Agent :=
  {| aid := aid a; position := position a; velocity := velocity a; speed := speed a;
     state := state a; infection_time := infection_time a;
     contact_time := c; in_quarantine := in_quarantine a;
     quarantine_position := quarantine_position a |}.
Definition set_in_quarantine (a : Agent) (b : bool) : Agent :=
  {| aid := aid a; position := position a; velocity := velocity a; speed := speed a;
     state := state a; infection_time := infection_time a;
     contact_time := contact_time a; in_quarantine := b;
     quarantine_position := quarantine_position a |}.
Definition set_quarantine_position (a : Agent) (q : option Vector2) : Agent :=
  {| aid := aid a; position := position a; velocity := velocity a; speed := speed a;
     state := state a; infection_time := infection_time a;
     contact_time := contact_time a; in_quarantine := in_quarantine a;
     quarantine_position := q |}.

(** [Agent.vaccinate]: the draw is made only for a susceptible agent. *)
Definition vaccinate (self : Agent) : Rand (bool * Agent) :=
  if decide (state self = SUSCEPTIBLE) then
    r ← random;
    if Qltb r VACCINATION_SUCCESS_RATE
    then mret (true, set_state self IMMUNE)
    else mret (false, self)
  else mret (false, self).

Section Contact.
Context `{MathLib}.

(** The contact time after the [+= 1] of the tracking step. *)
Definition track_contact (c : gmap nat Z) (agent_id : nat) : gmap nat Z :=
  let c0 := match c !! agent_id with
            | None => <[agent_id := 0]> c
            | Some _ => c
            end in
  <[agent_id := default 0 (c0 !! agent_id) + 1]> c0.

Definition infection_chance (duration : Z) : Q :=
  (BASE_INFECTION_PROB * (1 + inject_Z duration * (1 # 100)))%Q.

(** The loop of [Agent.check_infection] over [agents]; [self] is the
    agent as mutated so far. *)
Fixpoint check_infection_loop (self : Agent) (agents : list Agent) : Rand Agent :=
  match agents with
  | [] => mret self
  | agent :: rest =>
      if bool_decide (state agent = INFECTED) && bool_decide (aid agent ≠ aid self) then
        let distance := distance_to (position self) (position agent) in
        if Qltb distance INFECTION_RADIUS then
          let agent_id := aid agent in
          let self1 := set_contact_time self (track_contact (contact_time self) agent_id) in
          let chance := infection_chance (default 0 (contact_time self1 !! agent_id)) in
          r ← random;
          if Qltb r chance
          then mret (set_infection_time (set_state self1 INFECTED) 0)
          else check_infection_loop self1 rest
        else
          let agent_id := aid agent in
          let self1 := match contact_time self !! agent_id with
                       | Some _ => set_contact_time self (delete agent_id (contact_time self))
                       | None => self
                       end in
          check_infection_loop self1 rest
      else check_infection_loop self rest
  end.

(** [Agent.check_infection] *)
Definition check_infection (self : Agent) (agents : list Agent) : Rand Agent :=
  if decide (state self = SUSCEPTIBLE)
  then check_infection_loop self agents
  else mret self.
End Contact.

(** [Agent.__init__]; [new_id] is the identity of the object created. *)
Definition Agent_init `{MathLib} (new_id : nat) (st : AgentState) : Rand Agent :=
  x ← uniform 50 (WIDTH - 50)%Q;
  y ← uniform 50 (HEIGHT - GRAPH_HEIGHT - 50)%Q;
  v ← random_heading;
  mret {| aid := new_id; position := {| vx := x; vy := y |}; velocity := v;
          speed := MOVEMENT_SPEED; state := st; infection_time := 0;
          contact_time := ∅; in_quarantine := false;
          quarantine_position := None |}.

(** ** Quarantine zones *)

Record Rect := { rect_x : Z; rect_y : Z; rect_width : Z; rect_height : Z }.

Record QuarantineZone := {
  rect : Rect;
  capacity : Z;
  current_count : Z
}.

(** [pygame.Rect] stores its four fields as 32-bit signed integers: a
    value out of that range wraps around. *)
Definition wrap_int32 (z : Z) : Z := (z + 2 ^ 31) mod 2 ^ 32 - 2 ^ 31.

(** [QuarantineZone.__init__] *)
Definition QuarantineZone_init (x y width height capacity : Z) : QuarantineZone :=
  {| rect := {| rect_x := wrap_int32 x; rect_y := wrap_int32 y;
                rect_width := wrap_int32 width; rect_height := wrap_int32 height |};
     capacity := capacity; current_count := 0 |}.

Definition has_space (zone : QuarantineZone) : bool :=
  current_count zone <? capacity zone.

Definition get_position (zone : QuarantineZone) : Rand Vector2 :=
  let r := rect zone in
  x ← uniform (inject_Z (rect_x r + 10)) (inject_Z (rect_x r + rect_width r - 10));
  y ← uniform (inject_Z (rect_y r + 10)) (inject_Z (rect_y r + rect_height r - 10));
  mret {| vx := x; vy := y |}.

(** ** [Agent.update] *)

(** [random.choice] on a non-empty list ([d] is never returned then). *)
Definition choice {A} (d : A) (l : list A) : Rand A :=
  i ← randbelow (length l);
  mret (nth i l d).

Section Update.
Context `{MathLib}.

(** The scan [for zone in quarantine_zones: if zone.has_space(): ...; break]. *)
Fixpoint quarantine_scan (self : Agent) (zones : list QuarantineZone) : Rand Agent :=
  match zones with
  | [] => mret self
  | zone :: rest =>
      if has_space zone then
        p ← get_position zone;
        mret (set_quarantine_position (set_in_quarantine self true) (Some p))
      else quarantine_scan self rest
  end.

(** "Move to quarantine if enabled and not already there". *)
Definition update_quarantine (self : Agent) (zones : list QuarantineZone)
    (enable_quarantine : bool) : Rand Agent :=
  if enable_quarantine && negb (in_quarantine self)
  then quarantine_scan self zones
  else mret self.

(** The truth value of [self.in_quarantine and self.quarantine_position]. *)
Definition heading_for_quarantine (self : Agent) : option Vector2 :=
  if in_quarantine self then
    match quarantine_position self with
    | Some q => if vbool q then Some q else None
    | None => None
    end
  else None.

(** "Bounce off edges", then "Keep within bounds". *)
Definition bounce_and_clamp (self : Agent) : Agent :=
  let p := position self in
  let v := velocity self in
  let v1 := if Qltb (vx p) 0 || Qgtb (vx p) WIDTH
            then {| vx := vx v * (-1); vy := vy v |}%Q else v in
  let v2 := if Qltb (vy p) 0 || Qgtb (vy p) (HEIGHT - GRAPH_HEIGHT)
            then {| vx := vx v1; vy := vy v1 * (-1) |}%Q else v1 in
  let p1 := {| vx := Qmax 0 (Qmin (vx p) WIDTH);
               vy := Qmax 0 (Qmin (vy p) (HEIGHT - GRAPH_HEIGHT)) |} in
  set_position (set_velocity self v2) p1.

(** "Random direction change", the last step before [return True]. *)
Definition update_finish (self : Agent) : Rand (outcome bool * Agent) :=
  let self := bounce_and_clamp self in
  r ← random;
  if Qltb r (2 # 100) then
    v ← random_heading;
    mret (Returned true, set_velocity self v)
  else mret (Returned true, self).

(** "Update position" and everything after it. *)
Definition update_move (self : Agent) (agents : list Agent) : Rand (outcome bool * Agent) :=
  match heading_for_quarantine self with
  | Some q =>
      let direction := vsub q (position self) in
      if Qgtb (vlength direction) 2 then
        match normalize direction with
        | Returned d =>
            update_finish
              (set_position self
                 (vadd (position self) (vscale (vscale d (speed self)) (1 # 2))))
        | Raised e => mret (Raised e, self)
        end
      else
        let self := set_position self
                      (vadd (position self)
                            (vscale (vscale (velocity self) (speed self)) (3 # 10))) in
        r ← random;
        if Qltb r (5 # 100) then
          v ← random_heading;
          update_finish (set_velocity self v)
        else update_finish self
  | None =>
      let self := set_position self
                    (vadd (position self) (vscale (velocity self) (speed self))) in
      r ← random;
      if Qltb r (1 # 100) then
        let nearby_agents :=
          filter (fun a => aid a ≠ aid self ∧
                           Qltb (distance_to (position self) (position a)) 50 = true)
                 agents in
        match nearby_agents with
        | [] => update_finish self
        | a0 :: _ =>
            target ← choice a0 nearby_agents;
            match normalize (vsub (position target) (position self)) with
            | Returned direction => update_finish (set_velocity self direction)
            | Raised e => mret (Raised e, self)
            end
        end
      else update_finish self
  end.

(** [Agent.update]; [recovery_prob] is the value of the global
    [RECOVERY_PROB] at the time of the call.  [Returned false] is the
    death of the agent. *)
Definition update (self : Agent) (agents : list Agent)
    (quarantine_zones : list QuarantineZone) (enable_quarantine : bool)
    (recovery_prob : Q) : Rand (outcome bool * Agent) :=
  if decide (state self = INFECTED) then
    let self := set_infection_time self (infection_time self + 1) in
    if RECOVERY_TIME <=? infection_time self then
      r ← random;
      if Qltb r recovery_prob then
        let self := set_in_quarantine (set_state self RECOVERED) false in
        self ← update_quarantine self quarantine_zones enable_quarantine;
        update_move self agents
      else mret (Returned false, self)
    else
      self ← update_quarantine self quarantine_zones enable_quarantine;
      update_move self agents
  else update_move self agents.
End Update.

(** ** Statistics *)

(** [deque.append] on a [deque(maxlen=...)]: the oldest entries leave. *)
Definition deque_append {A} (maxlen : nat) (d : list A) (x : A) : list A :=
  let d' := d ++ [x] in
  drop (length d' - maxlen) d'.

Record Statistics := {
  max_history : nat;
  susceptible_history : list Z;
  infected_history : list Z;
  recovered_history : list Z;
  immune_history : list Z;
  infection_rate_history : list Q;
  recovery_rate_history : list Q;
  death_count : Z;
  total_infections : Z;
  total_recoveries : Z;
  prev_infected : Z;
  prev_recovered : Z
}.

(** [Statistics.__init__] *)
Definition Statistics_init (max_history : nat) : Statistics :=
  {| max_history := max_history;
     susceptible_history := []; infected_history := [];
     recovered_history := []; immune_history := [];
     infection_rate_history := []; recovery_rate_history := [];
     death_count := 0; total_infections := 0; total_recoveries := 0;
     prev_infected := 0; prev_recovered := 0 |}.

(** [sum(1 for a in agents if a.state == st)] *)
Definition count_state (st : AgentState) (agents : list Agent) : Z :=
  Z.of_nat (length (filter (fun a => state a = st) agents)).

Definition new_infections_of (self : Statistics) (infected recovered : Z) : Z :=
  Z.max 0 (infected - prev_infected self + (prev_recovered self - recovered)).

Definition new_recoveries_of (self : Statistics) (recovered : Z) : Z :=
  Z.max 0 (recovered - prev_recovered self).

(** The statistics once the four population counts are appended. *)
Definition append_counts (self : Statistics) (s i r m : Z) : Statistics :=
  {| max_history := max_history self;
     susceptible_history := deque_append (max_history self) (susceptible_history self) s;
     infected_history := deque_append (max_history self) (infected_history self) i;
     recovered_history := deque_append (max_history self) (recovered_history self) r;
     immune_history := deque_append (max_history self) (immune_history self) m;
     infection_rate_history := infection_rate_history self;
     recovery_rate_history := recovery_rate_history self;
     death_count := death_count self;
     total_infections := total_infections self;
     total_recoveries := total_recoveries self;
     prev_infected := prev_infected self;
     prev_recovered := prev_recovered self |}.

(** The rest of [Statistics.update], once both rates are computed. *)
Definition record_rates (self : Statistics) (infected recovered : Z)
    (new_infections new_recoveries : Z) (infection_rate recovery_rate : Q) : Statistics :=
  {| max_history := max_history self;
     susceptible_history := susceptible_history self;
     infected_history := infected_history self;
     recovered_history := recovered_history self;
     immune_history := immune_history self;
     infection_rate_history :=
       deque_append (max_history self) (infection_rate_history self) infection_rate;
     recovery_rate_history :=
       deque_append (max_history self) (recovery_rate_history self) recovery_rate;
     death_count := death_count self;
     total_infections :=
       if 0 <? new_infections then total_infections self + new_infections
       else total_infections self;
     total_recoveries :=
       if 0 <? new_recoveries then total_recoveries self + new_recoveries
       else total_recoveries self;
     prev_infected := infected;
     prev_recovered := recovered |}.

(** [Statistics.update]: the outcome and the statistics it leaves. *)
Definition Statistics_update (self : Statistics) (agents : list Agent)
    : outcome unit * Statistics :=
  let susceptible := count_state SUSCEPTIBLE agents in
  let infected := count_state INFECTED agents in
  let recovered := count_state RECOVERED agents in
  let immune := count_state IMMUNE agents in
  let new_infections := new_infections_of self infected recovered in
  let new_recoveries := new_recoveries_of self recovered in
  let self := append_counts self susceptible infected recovered immune in
  match truediv new_infections (Z.max 1 (Z.of_nat (length agents))) with
  | Raised e => (Raised e, self)
  | Returned q1 =>
      let infection_rate := (q1 * 100)%Q in
      let recovery :=
        if 0 <? infected then
          match truediv new_recoveries (Z.max 1 infected) with
          | Returned q2 => Returned (q2 * 100)%Q
          | Raised e => Raised e
          end
        else Returned 0%Q in
      match recovery with
      | Raised e => (Raised e, self)
      | Returned recovery_rate =>
          (Returned (),
           record_rates self infected recovered new_infections new_recoveries
                        infection_rate recovery_rate)
      end
  end.

(** ** EpidemicSimulation *)

Record EpidemicSimulation := {
  agents : list Agent;
  statistics : Statistics;
  quarantine_zones : list QuarantineZone;
  infection_prob_multiplier : Q;
  recovery_prob_multiplier : Q;
  vaccination_rate_multiplier : Q;
  enable_quarantine : bool;
  running : bool;
  paused : bool;
  frame_count : Z;
  global_RECOVERY_PROB : Q;           (* the module global RECOVERY_PROB *)
  next_id : nat                       (* identity of the next object created *)
}.

Definition set_agents (sim : EpidemicSimulation) (l : list Agent) : EpidemicSimulation :=
  {| agents := l; statistics := statistics sim;
     quarantine_zones := quarantine_zones sim;
     infection_prob_multiplier := infection_prob_multiplier sim;
     recovery_prob_multiplier := recovery_prob_multiplier sim;
     vaccination_rate_multiplier := vaccination_rate_multiplier sim;
     enable_quarantine := enable_quarantine sim; running := running sim;
     paused := paused sim; frame_count := frame_count sim;
     global_RECOVERY_PROB := global_RECOVERY_PROB sim; next_id := next_id sim |}.
Definition set_statistics (sim : EpidemicSimulation) (st : Statistics) : EpidemicSimulation :=
  {| agents := agents sim; statistics := st;
     quarantine_zones := quarantine_zones sim;
     infection_prob_multiplier := infection_prob_multiplier sim;
     recovery_prob_multiplier := recovery_prob_multiplier sim;
     vaccination_rate_multiplier := vaccination_rate_multiplier sim;
     enable_quarantine := enable_quarantine sim; running := running sim;
     paused := paused sim; frame_count := frame_count sim;
     global_RECOVERY_PROB := global_RECOVERY_PROB sim; next_id := next_id sim |}.
Definition set_frame_count (sim : EpidemicSimulation) (n : Z) : EpidemicSimulation :=
  {| agents := agents sim; statistics := statistics sim;
     quarantine_zones := quarantine_zones sim;
     infection_prob_multiplier := infection_prob_multiplier sim;
     recovery_prob_multiplier := recovery_prob_multiplier sim;
     vaccination_rate_multiplier := vaccination_rate_multiplier sim;
     enable_quarantine := enable_quarantine sim; running := running sim;
     paused := paused sim; frame_count := n;
     global_RECOVERY_PROB := global_RECOVERY_PROB sim; next_id := next_id sim |}.
Definition set_global_RECOVERY_PROB (sim : EpidemicSimulation) (p : Q) : EpidemicSimulation :=
  {| agents := agents sim; statistics := statistics sim;
     quarantine_zones := quarantine_zones sim;
     infection_prob_multiplier := infection_prob_multiplier sim;
     recovery_prob_multiplier := recovery_prob_multiplier sim;
     vaccination_rate_multiplier := vaccination_rate_multiplier sim;
     enable_quarantine := enable_quarantine sim; running := running sim;
     paused := paused sim; frame_count := frame_count sim;
     global_RECOVERY_PROB := p; next_id := next_id sim |}.
Definition set_next_id (sim : EpidemicSimulation) (n : nat) : EpidemicSimulation :=
  {| agents := agents sim; statistics := statistics sim;
     quarantine_zones := quarantine_zones sim;
     infection_prob_multiplier := infection_prob_multiplier sim;
     recovery_prob_multiplier := recovery_prob_multiplier sim;
     vaccination_rate_multiplier := vaccination_rate_multiplier sim;
     enable_quarantine := enable_quarantine sim; running := running sim;
     paused := paused sim; frame_count := frame_count sim;
     global_RECOVERY_PROB := global_RECOVERY_PROB sim; next_id := n |}.
(** The four assignments of a scenario in [load_scenario]. *)
Definition set_scenario (sim : EpidemicSimulation) (inf rec vac : Q) (quar : bool)
    : EpidemicSimulation :=
  {| agents := agents sim; statistics := statistics sim;
     quarantine_zones := quarantine_zones sim;
     infection_prob_multiplier := inf;
     recovery_prob_multiplier := rec;
     vaccination_rate_multiplier := vac;
     enable_quarantine := quar; running := running sim;
     paused := paused sim; frame_count := frame_count sim;
     global_RECOVERY_PROB := global_RECOVERY_PROB sim; next_id := next_id sim |}.

Definition add_death (st : Statistics) : Statistics :=
  {| max_history := max_history st;
     susceptible_history := susceptible_history st;
     infected_history := infected_history st;
     recovered_history := recovered_history st;
     immune_history := immune_history st;
     infection_rate_history := infection_rate_history st;
     recovery_rate_history := recovery_rate_history st;
     death_count := death_count st + 1;
     total_infections := total_infections st;
     total_recoveries := total_recoveries st;
     prev_infected := prev_infected st;
     prev_recovered := prev_recovered st |}.

Section Engine.
Context `{MathLib}.

(** *** The tick: [EpidemicSimulation.update] *)

(** State of the loop "Update all agents": [self.agents] is
    [lp_done ++ todo], the agents of [lp_done] having been updated in
    place; a raise leaves the loop with the global [RECOVERY_PROB] still
    modified. *)
Record AgentsLoop := {
  lp_done : list Agent;
  lp_surviving : list Agent;
  lp_statistics : Statistics
}.

Fixpoint update_agents (zones : list QuarantineZone) (enable : bool)
    (effective_recovery_prob : Q) (st : AgentsLoop) (todo : list Agent)
    : Rand (outcome unit * AgentsLoop * list Agent) :=
  match todo with
  | [] => mret (Returned (), st, [])
  | agent :: rest =>
      '(res, agent') ← update agent (lp_done st ++ todo) zones enable
                              effective_recovery_prob;
      match res with
      | Returned true =>
          update_agents zones enable effective_recovery_prob
            {| lp_done := lp_done st ++ [agent'];
               lp_surviving := lp_surviving st ++ [agent'];
               lp_statistics := lp_statistics st |} rest
      | Returned false =>
          update_agents zones enable effective_recovery_prob
            {| lp_done := lp_done st ++ [agent'];
               lp_surviving := lp_surviving st;
               lp_statistics := add_death (lp_statistics st) |} rest
      | Raised e =>
          mret (Raised e,
                {| lp_done := lp_done st ++ [agent'];
                   lp_surviving := lp_surviving st;
                   lp_statistics := lp_statistics st |}, rest)
      end
  end.

(** "Check for infections": [for agent in self.agents:
    agent.check_infection(self.agents)], the list being [done ++ todo]. *)
Fixpoint infection_pass (done todo : list Agent) : Rand (list Agent) :=
  match todo with
  | [] => mret done
  | agent :: rest =>
      agent' ← check_infection agent (done ++ todo);
      infection_pass (done ++ [agent']) rest
  end.

Definition EpidemicSimulation_update (self : EpidemicSimulation)
    : Rand (outcome unit * EpidemicSimulation) :=
  if paused self then mret (Returned (), self)
  else
    let self := set_frame_count self (frame_count self + 1) in
    let effective_infection_prob :=
      (BASE_INFECTION_PROB * infection_prob_multiplier self)%Q in
    let effective_recovery_prob :=
      Qmin (99 # 100) (global_RECOVERY_PROB self * recovery_prob_multiplier self) in
    '(res, lp, rest) ← update_agents (quarantine_zones self) (enable_quarantine self)
                          effective_recovery_prob
                          {| lp_done := []; lp_surviving := [];
                             lp_statistics := statistics self |}
                          (agents self);
    match res with
    | Raised e =>
        mret (Raised e,
              set_global_RECOVERY_PROB
                (set_statistics (set_agents self (lp_done lp ++ rest)) (lp_statistics lp))
                effective_recovery_prob)
    | Returned _ =>
        let self := set_statistics self (lp_statistics lp) in
        survivors ← infection_pass [] (lp_surviving lp);
        let self := set_agents self survivors in
        if frame_count self mod 5 =? 0 then
          let '(res, st) := Statistics_update (statistics self) (agents self) in
          mret (res, set_statistics self st)
        else mret (Returned (), self)
    end.
End Engine.

(** ** Reset and scenarios *)

(** [random.sample(population, k)] by the pool method: [m] is the number of
    entries of [pool] still eligible.  (The library picks between this
    method and one that rejects repeated indices; both return [k] members
    at distinct positions, which is all that is used below.) *)
Fixpoint sample_pool {A} (d : A) (pool : list A) (m k : nat) : Rand (list A) :=
  match k with
  | O => mret []
  | S k' =>
      j ← randbelow m;
      let x := nth j pool d in
      picked ← sample_pool d (<[j := nth (m - 1) pool d]> pool) (m - 1) k';
      mret (x :: picked)
  end.

Definition sample {A} (d : A) (population : list A) (k : Z) : Rand (outcome (list A)) :=
  if (k <? 0) || (Z.of_nat (length population) <? k)
  then mret (Raised ValueError)
  else
    picked ← sample_pool d population (length population) (Z.to_nat k);
    mret (Returned picked).

(** Positions in [l] of the agents of [[a for a in l if a.state == st]]. *)
Definition indices_in_state (st : AgentState) (l : list Agent) : list nat :=
  filter (fun i => state <$> l !! i = Some st) (seq 0 (length l)).

(** [for agent in chosen: agent.vaccinate()], the agents being named by
    their positions in [store]. *)
Fixpoint vaccinate_all (chosen : list nat) (store : list Agent) : Rand (list Agent) :=
  match chosen with
  | [] => mret store
  | i :: rest =>
      match store !! i with
      | Some agent =>
          '(_, agent') ← vaccinate agent;
          vaccinate_all rest (<[i := agent']> store)
      | None => vaccinate_all rest store
      end
  end.

Section Reset.
Context `{MathLib}.

(** [for _ in range(n): self.agents.append(Agent(st))] *)
Fixpoint create_agents (n : nat) (st : AgentState) (next : nat) (acc : list Agent)
    : Rand (list Agent * nat) :=
  match n with
  | O => mret (acc, next)
  | S n' =>
      a ← Agent_init next st;
      create_agents n' st (S next) (acc ++ [a])
  end.

Definition reset_simulation (self : EpidemicSimulation)
    : Rand (outcome unit * EpidemicSimulation) :=
  let self := set_frame_count (set_statistics (set_agents self []) (Statistics_init 500)) 0 in
  '(l1, id1) ← create_agents (Z.to_nat (INITIAL_POPULATION - INITIAL_INFECTED))
                  SUSCEPTIBLE (next_id self) [];
  '(l2, id2) ← create_agents (Z.to_nat INITIAL_INFECTED) INFECTED id1 l1;
  let self := set_next_id (set_agents self l2) id2 in
  r ← random;
  if Qltb r (vaccination_rate_multiplier self) then
    let num_to_vaccinate :=
      py_int (float_mul (float_mul (inject_Z INITIAL_POPULATION) VACCINATION_RATE)
                        (vaccination_rate_multiplier self)) in
    let susceptible_agents := indices_in_state SUSCEPTIBLE (agents self) in
    res ← sample 0%nat susceptible_agents
            (Z.min num_to_vaccinate (Z.of_nat (length susceptible_agents)));
    match res with
    | Raised e => mret (Raised e, self)
    | Returned chosen =>
        l3 ← vaccinate_all chosen (agents self);
        mret (Returned (), set_agents self l3)
    end
  else mret (Returned (), self).

Definition load_scenario (self : EpidemicSimulation) (scenario_id : Z)
    : Rand (outcome unit * EpidemicSimulation) :=
  '(res, self) ← reset_simulation self;
  match res with
  | Raised e => mret (Raised e, self)
  | Returned _ =>
      if scenario_id =? 1 then
        mret (Returned (), set_scenario self 2 (1 # 2) 0 false)
      else if scenario_id =? 2 then
        mret (Returned (), set_scenario self (8 # 10) (15 # 10) (15 # 10) true)
      else mret (Returned (), self)
  end.

(** [EpidemicSimulation.__init__], the display left aside. *)
Definition EpidemicSimulation_init (first_id : nat)
    : Rand (outcome unit * EpidemicSimulation) :=
  reset_simulation
    {| agents := []; statistics := Statistics_init 500;
       quarantine_zones :=
         [QuarantineZone_init (Qfloor WIDTH - 250) 50 200 200 50];
       infection_prob_multiplier := 1; recovery_prob_multiplier := 1;
       vaccination_rate_multiplier := 1; enable_quarantine := true;
       running := true; paused := false; frame_count := 0;
       global_RECOVERY_PROB := RECOVERY_PROB; next_id := first_id |}.
End Reset.

(** ** Input events: [EpidemicSimulation.handle_events] *)

Definition set_paused (sim : EpidemicSimulation) (b : bool) : EpidemicSimulation :=
  {| agents := agents sim; statistics := statistics sim;
     quarantine_zones := quarantine_zones sim;
     infection_prob_multiplier := infection_prob_multiplier sim;
     recovery_prob_multiplier := recovery_prob_multiplier sim;
     vaccination_rate_multiplier := vaccination_rate_multiplier sim;
     enable_quarantine := enable_quarantine sim; running := running sim;
     paused := b; frame_count := frame_count sim;
     global_RECOVERY_PROB := global_RECOVERY_PROB sim; next_id := next_id sim |}.
Definition set_running (sim : EpidemicSimulation) (b : bool) : EpidemicSimulation :=
  {| agents := agents sim; statistics := statistics sim;
     quarantine_zones := quarantine_zones sim;
     infection_prob_multiplier := infection_prob_multiplier sim;
     recovery_prob_multiplier := recovery_prob_multiplier sim;
     vaccination_rate_multiplier := vaccination_rate_multiplier sim;
     enable_quarantine := enable_quarantine sim; running := b;
     paused := paused sim; frame_count := frame_count sim;
     global_RECOVERY_PROB := global_RECOVERY_PROB sim; next_id := next_id sim |}.

(** The events that [handle_events] tells apart. *)
Inductive Key :=
| K_SPACE | K_r | K_q | K_UP | K_DOWN | K_RIGHT | K_LEFT
| K_w | K_s | K_1 | K_2 | K_v | K_other.

Inductive Event := QUIT | KEYDOWN (key : Key) | OTHER_EVENT.

(** Key V: [for agent in susceptible: if random.random() <
    VACCINATION_RATE * multiplier: agent.vaccinate()], the agents being
    named by their positions in [store]. *)
Fixpoint vaccinate_some (chosen : list nat) (rate : Q) (store : list Agent)
    : Rand (list Agent) :=
  match chosen with
  | [] => mret store
  | i :: rest =>
      match store !! i with
      | Some agent =>
          r ← random;
          if Qltb r rate then
            '(_, agent') ← vaccinate agent;
            vaccinate_some rest rate (<[i := agent']> store)
          else vaccinate_some rest rate store
      | None => vaccinate_some rest rate store
      end
  end.

Section Events.
Context `{MathLib}.

(** The body of the loop of [handle_events] for one event. *)
Definition handle_event (self : EpidemicSimulation) (event : Event)
    : Rand (outcome unit * EpidemicSimulation) :=
  match event with
  | QUIT => mret (Returned (), set_running self false)
  | OTHER_EVENT => mret (Returned (), self)
  | KEYDOWN key =>
      match key with
      | K_SPACE => mret (Returned (), set_paused self (negb (paused self)))
      | K_r => reset_simulation self
      | K_q =>
          mret (Returned (),
                set_scenario self (infection_prob_multiplier self)
                  (recovery_prob_multiplier self) (vaccination_rate_multiplier self)
                  (negb (enable_quarantine self)))
      | K_UP =>
          mret (Returned (),
                set_scenario self (Qmin 2 (infection_prob_multiplier self + (1 # 10)))
                  (recovery_prob_multiplier self) (vaccination_rate_multiplier self)
                  (enable_quarantine self))
      | K_DOWN =>
          mret (Returned (),
                set_scenario self (Qmax (1 # 10) (infection_prob_multiplier self - (1 # 10)))
                  (recovery_prob_multiplier self) (vaccination_rate_multiplier self)
                  (enable_quarantine self))
      | K_RIGHT =>
          mret (Returned (),
                set_scenario self (infection_prob_multiplier self)
                  (Qmin 2 (recovery_prob_multiplier self + (1 # 10)))
                  (vaccination_rate_multiplier self) (enable_quarantine self))
      | K_LEFT =>
          mret (Returned (),
                set_scenario self (infection_prob_multiplier self)
                  (Qmax (1 # 10) (recovery_prob_multiplier self - (1 # 10)))
                  (vaccination_rate_multiplier self) (enable_quarantine self))
      | K_w =>
          mret (Returned (),
                set_scenario self (infection_prob_multiplier self)
                  (recovery_prob_multiplier self)
                  (Qmin 2 (vaccination_rate_multiplier self + (1 # 10)))
                  (enable_quarantine self))
      | K_s =>
          mret (Returned (),
                set_scenario self (infection_prob_multiplier self)
                  (recovery_prob_multiplier self)
                  (Qmax 0 (vaccination_rate_multiplier self - (1 # 10)))
                  (enable_quarantine self))
      | K_1 => load_scenario self 1
      | K_2 => load_scenario self 2
      | K_v =>
          let susceptible := indices_in_state SUSCEPTIBLE (agents self) in
          l ← vaccinate_some susceptible
                (VACCINATION_RATE * vaccination_rate_multiplier self)%Q (agents self);
          mret (Returned (), set_agents self l)
      | K_other => mret (Returned (), self)
      end
  end.

(** [handle_events] over the events [pygame.event.get()] returned; a raise
    ends the loop. *)
Fixpoint handle_events (self : EpidemicSimulation) (events : list Event)
    : Rand (outcome unit * EpidemicSimulation) :=
  match events with
  | [] => mret (Returned (), self)
  | event :: rest =>
      '(res, self) ← handle_event self event;
      match res with
      | Returned _ => handle_events self rest
      | Raised e => mret (Raised e, self)
      end
  end.
End Events.

(** ** Colours: [Agent.get_color] *)

Definition SUSCEPTIBLE_COLOR : Z * Z * Z := (100, 200, 255).
Definition INFECTED_COLOR : Z * Z * Z := (255, 100, 100).
Definition RECOVERED_COLOR : Z * Z * Z := (100, 255, 100).
Definition IMMUNE_COLOR : Z * Z * Z := (255, 200, 50).

Definition get_color (self : Agent) : Z * Z * Z :=
  match state self with
  | SUSCEPTIBLE => SUSCEPTIBLE_COLOR
  | INFECTED => INFECTED_COLOR
  | RECOVERED => RECOVERED_COLOR
  | IMMUNE => IMMUNE_COLOR
  end.

(** ** A concrete library and supply, to run the model

    The properties below hold for every [MathLib].  To evaluate the engine
    on concrete populations a library is fixed here: the square root is
    exact on the squares of rationals, the trigonometric functions are
    Bhaskara's rational approximation, and the float product is the
    exact one (on the runs below the machine's product is exact too). *)

Definition approx_sqrt (q : Q) : Q :=
  Z.sqrt (Qnum q * Zpos (Qden q)) # Qden q.

Definition approx_pi : Q := 355 # 113.

(** [16 x (pi - x) / (5 pi^2 - 4 x (pi - x))] on [0, pi], odd about [pi]. *)
Definition approx_sin (x : Q) : Q :=
  let half (y : Q) := (16 * y * (approx_pi - y)
                       / (5 * approx_pi * approx_pi - 4 * y * (approx_pi - y)))%Q in
  if Qle_bool x approx_pi then half x else (- half (x - approx_pi))%Q.

Definition approx_cos (x : Q) : Q :=
  let y := (x + approx_pi / 2)%Q in
  approx_sin (if Qle_bool y (2 * approx_pi) then y else (y - 2 * approx_pi)%Q).

Definition approx_math : MathLib :=
  {| math_pi := approx_pi; math_cos := approx_cos;
     math_sin := approx_sin; math_sqrt := approx_sqrt;
     float_mul := Qmult |}.

(** The supply whose first draws are [l], every later draw being [d]. *)
Definition rng_of (l : list Q) (d : Q) : Rng :=
  {| rng_draws := fun n => nth n l d; rng_pos := 0 |}.

(** An agent as [Agent.__init__] leaves it, at a chosen place. *)
Definition agent_at (i : nat) (st : AgentState) (p v : Vector2) : Agent :=
  {| aid := i; position := p; velocity := v; speed := MOVEMENT_SPEED;
     state := st; infection_time := 0; contact_time := ∅;
     in_quarantine := false; quarantine_position := None |}.

(** A simulation with the default settings of [__init__] over a chosen
    population and zone list. *)
Definition simulation_of (l : list Agent) (zones : list QuarantineZone)
    : EpidemicSimulation :=
  {| agents := l; statistics := Statistics_init 500;
     quarantine_zones := zones;
     infection_prob_multiplier := 1; recovery_prob_multiplier := 1;
     vaccination_rate_multiplier := 1; enable_quarantine := true;
     running := true; paused := false; frame_count := 0;
     global_RECOVERY_PROB := RECOVERY_PROB; next_id := length l |}.

(** * Vocabulary of the properties and sample populations *)

(** What the movement part of [Agent.update] cannot touch. *)
Definition same_health (a a' : Agent) : Prop :=
  aid a' = aid a ∧ state a' = state a ∧ infection_time a' = infection_time a ∧
  contact_time a' = contact_time a ∧ in_quarantine a' = in_quarantine a ∧
  quarantine_position a' = quarantine_position a.

(** What the quarantine scan cannot touch. *)
Definition same_state (a a' : Agent) : Prop :=
  aid a' = aid a ∧ state a' = state a ∧ infection_time a' = infection_time a ∧
  contact_time a' = contact_time a.

(** The health of an agent after an operation: still in the population in
    some state, or removed from it. *)
Inductive fate := Alive (s : AgentState) | Removed.

(** The edges of the health-state graph, and staying in place. *)
Inductive health_edge : AgentState → fate → Prop :=
| edge_stay s : health_edge s (Alive s)
| edge_infected : health_edge SUSCEPTIBLE (Alive INFECTED)
| edge_immune : health_edge SUSCEPTIBLE (Alive IMMUNE)
| edge_recovered : health_edge INFECTED (Alive RECOVERED)
| edge_removed : health_edge INFECTED Removed.

(** The fate reported by [Agent.update]: [False] is death. *)
Definition fate_of_update (r : outcome bool * Agent) : fate :=
  match fst r with
  | Returned false => Removed
  | _ => Alive (state (snd r))
  end.

(** The two rates of a sample, as [Statistics.update] computes them. *)
Definition infection_rate_of (self : Statistics) (agents : list Agent) : Q :=
  (inject_Z (new_infections_of self (count_state INFECTED agents)
                               (count_state RECOVERED agents))
   / inject_Z (Z.max 1 (Z.of_nat (length agents))) * 100)%Q.

Definition recovery_rate_of (self : Statistics) (agents : list Agent) : Q :=
  if 0 <? count_state INFECTED agents then
    (inject_Z (new_recoveries_of self (count_state RECOVERED agents))
     / inject_Z (Z.max 1 (count_state INFECTED agents)) * 100)%Q
  else 0%Q.

(** The statistics after [d] more deaths were counted. *)
Definition with_deaths (st : Statistics) (d : Z) : Statistics :=
  {| max_history := max_history st;
     susceptible_history := susceptible_history st;
     infected_history := infected_history st;
     recovered_history := recovered_history st;
     immune_history := immune_history st;
     infection_rate_history := infection_rate_history st;
     recovery_rate_history := recovery_rate_history st;
     death_count := death_count st + d;
     total_infections := total_infections st;
     total_recoveries := total_recoveries st;
     prev_infected := prev_infected st;
     prev_recovered := prev_recovered st |}.

(** The statistics a sample over [agents] leaves, written out: the counts
    are appended, the deltas are taken against the previous sample and
    clamped at zero, and each cumulative counter grows by its delta only
    when that delta is positive. *)
Definition sampled (st : Statistics) (agents : list Agent) (st' : Statistics) : Prop :=
  let infected := count_state INFECTED agents in
  let recovered := count_state RECOVERED agents in
  let new_infections :=
    Z.max 0 (infected - prev_infected st + (prev_recovered st - recovered)) in
  let new_recoveries := Z.max 0 (recovered - prev_recovered st) in
  susceptible_history st' =
    deque_append (max_history st) (susceptible_history st) (count_state SUSCEPTIBLE agents) ∧
  infected_history st' = deque_append (max_history st) (infected_history st) infected ∧
  recovered_history st' = deque_append (max_history st) (recovered_history st) recovered ∧
  immune_history st' =
    deque_append (max_history st) (immune_history st) (count_state IMMUNE agents) ∧
  total_infections st' =
    (if 0 <? new_infections then total_infections st + new_infections
     else total_infections st) ∧
  total_recoveries st' =
    (if 0 <? new_recoveries then total_recoveries st + new_recoveries
     else total_recoveries st) ∧
  prev_infected st' = infected ∧
  prev_recovered st' = recovered.

Definition vec (x y : Z) : Vector2 := {| vx := inject_Z x; vy := inject_Z y |}.

(** A Susceptible agent walking left and, ten units to its right, an
    Infected one walking right, two ticks before its recovery trial. *)
Definition alice : Agent := agent_at 0 SUSCEPTIBLE (vec 100 100) (vec (-1) 0).
Definition bob : Agent :=
  set_infection_time (agent_at 1 INFECTED (vec 110 100) (vec 1 0)) 298.

(** The default simulation over [alice] and [bob], quarantine switched off. *)
Definition two_agents : EpidemicSimulation :=
  set_scenario (simulation_of [alice; bob] []) 1 1 1 false.

(** The supply in which every draw is one half. *)
Definition halves : Rng := rng_of [] (1 # 2).

(** The simulation after [n] ticks, and the supply it leaves. *)
Fixpoint run_ticks `{MathLib} (n : nat) (sim : EpidemicSimulation) (g : Rng)
    : EpidemicSimulation * Rng :=
  match n with
  | O => (sim, g)
  | S n' =>
      let '(_, sim', g') := EpidemicSimulation_update sim g in
      run_ticks n' sim' g'
  end.

Definition set_infection_prob_multiplier (sim : EpidemicSimulation) (m : Q)
    : EpidemicSimulation :=
  {| agents := agents sim; statistics := statistics sim;
     quarantine_zones := quarantine_zones sim;
     infection_prob_multiplier := m;
     recovery_prob_multiplier := recovery_prob_multiplier sim;
     vaccination_rate_multiplier := vaccination_rate_multiplier sim;
     enable_quarantine := enable_quarantine sim; running := running sim;
     paused := paused sim; frame_count := frame_count sim;
     global_RECOVERY_PROB := global_RECOVERY_PROB sim; next_id := next_id sim |}.

(** [alice] and [bob] under the settings of scenario 1 (infection
    multiplier 2.0), and a supply whose fifth draw, the one of the contact
    check, is 0.03. *)
Definition doubled_infection : EpidemicSimulation :=
  set_scenario (simulation_of [alice; bob] []) 2 (1 # 2) 0 false.

Definition fifth_draw_low : Rng :=
  rng_of [1 # 2; 1 # 2; 1 # 2; 1 # 2; 3 # 100] (1 # 2).

(** Two Infected agents, quarantine enabled, and one zone of capacity 1. *)
Definition carol : Agent := agent_at 0 INFECTED (vec 100 100) (vec 1 0).
Definition dave : Agent := agent_at 1 INFECTED (vec 300 300) (vec 0 1).
Definition one_place : EpidemicSimulation :=
  simulation_of [carol; dave] [QuarantineZone_init 950 50 200 200 1].

(** An Infected agent one tick before its recovery trial. *)
Definition erin : Agent :=
  set_infection_time (agent_at 0 INFECTED (vec 100 100) (vec 1 0)) 299.

(** The simulation as [__init__] sets it up, before its first reset. *)
Definition fresh_simulation : EpidemicSimulation :=
  simulation_of [] [QuarantineZone_init 950 50 200 200 50].

(** The entries of every agent of [l] are for partners within the
    infection radius: a separated pair has no entry. *)
Definition contact_entries_only_within_radius `{MathLib} (l : list Agent) : Prop :=
  ∀ a b, a ∈ l → b ∈ l → aid a ≠ aid b →
    Qltb (distance_to (position a) (position b)) INFECTION_RADIUS = false →
    contact_time a !! aid b = None.

(** A Susceptible agent holding an entry for an Infected one 20 away. *)
Definition grace : Agent := agent_at 1 INFECTED (vec 120 100) (vec 1 0).
Definition frank : Agent :=
  set_contact_time (agent_at 0 SUSCEPTIBLE (vec 100 100) (vec 1 0)) {[ 1%nat := 3 ]}.

(** The canvas: [0, WIDTH] × [0, HEIGHT - GRAPH_HEIGHT]. *)
Definition in_bounds (p : Vector2) : Prop :=
  (0 <= vx p)%Q ∧ (vx p <= WIDTH)%Q ∧ (0 <= vy p)%Q ∧ (vy p <= HEIGHT - GRAPH_HEIGHT)%Q.

(** The supply after one draw. *)
Definition next_draw (g : Rng) : Rng :=
  {| rng_draws := rng_draws g; rng_pos := S (rng_pos g) |}.

(** A zone without free capacity. *)
Definition zone_full (zone : QuarantineZone) : Prop := capacity zone ≤ current_count zone.

(** The effect of the quarantine step of [Agent.update] on the flag and the
    target, from the agent [s] entering the step to the agent [a'] at the
    end of the update; [g] is the supply at the step.  Either nothing
    changes (quarantine disabled, agent already quarantined, or every zone
    full), or the agent joins the first zone with free capacity. *)
Definition quarantine_step (s a' : Agent) (zones : list QuarantineZone)
    (enable : bool) (g : Rng) : Prop :=
  (in_quarantine a' = in_quarantine s ∧ quarantine_position a' = quarantine_position s ∧
   (enable = false ∨ in_quarantine s = true ∨ Forall zone_full zones)) ∨
  (enable = true ∧ in_quarantine s = false ∧ in_quarantine a' = true ∧
   ∃ full zone rest, zones = full ++ zone :: rest ∧ Forall zone_full full ∧
     has_space zone = true ∧
     quarantine_position a' = Some (fst (get_position zone g))).

(** A Susceptible agent about to leave the canvas on the right. *)
Definition walker : Agent := agent_at 3 SUSCEPTIBLE (vec 1199 100) (vec 1 0).

(** An Infected agent whose recovery trial is due, and one far from it. *)
Definition due : Agent :=
  set_infection_time (agent_at 4 INFECTED (vec 200 200) (vec 0 1)) 299.
Definition early : Agent :=
  set_infection_time (agent_at 5 INFECTED (vec 200 200) (vec 0 1)) 10.

(** The zone of [__init__], one of capacity 0, and a full one. *)
Definition default_zone : QuarantineZone := QuarantineZone_init 950 50 200 200 50.
Definition no_room : QuarantineZone := QuarantineZone_init 10 10 100 100 0.

(** The supply whose every draw is [d]. *)
Definition constant_draws (d : Q) : Rng := rng_of [] d.

(** The interior of a zone, ten units inside each edge. *)
Definition inside_margin (zone : QuarantineZone) (p : Vector2) : Prop :=
  let r := rect zone in
  (inject_Z (rect_x r + 10) <= vx p)%Q ∧
  (vx p <= inject_Z (rect_x r + rect_width r - 10))%Q ∧
  (inject_Z (rect_y r + 10) <= vy p)%Q ∧
  (vy p <= inject_Z (rect_y r + rect_height r - 10))%Q.

(** The next [n] draws of the supply lie in the unit interval. *)
Definition unit_draws (g : Rng) (n : nat) : Prop :=
  ∀ i, (i < n)%nat →
    (0 <= rng_draws g (rng_pos g + i))%Q ∧ (rng_draws g (rng_pos g + i) <= 1)%Q.

(** An Infected agent already on its way to a target in the default zone. *)
Definition confined : Agent :=
  set_quarantine_position (set_in_quarantine early true) (Some (vec 1000 100)).

(** What a contact check may do to an agent: nothing to one that is not
    Susceptible; for a Susceptible one, contact durations apart, either
    nothing or the infection with the infection time at 0. *)
Definition contact_step (a a' : Agent) : Prop :=
  aid a' = aid a ∧ position a' = position a ∧ velocity a' = velocity a ∧
  speed a' = speed a ∧
  in_quarantine a' = in_quarantine a ∧ quarantine_position a' = quarantine_position a ∧
  (state a ≠ SUSCEPTIBLE → a' = a) ∧
  ((state a' = state a ∧ infection_time a' = infection_time a) ∨
   (state a = SUSCEPTIBLE ∧ state a' = INFECTED ∧ infection_time a' = 0)).

(** No Infected agent other than [self] is within the infection radius. *)
Definition out_of_reach `{MathLib} (self : Agent) (agents : list Agent) : Prop :=
  ∀ b, b ∈ agents → state b = INFECTED → aid b ≠ aid self →
    Qltb (distance_to (position self) (position b)) INFECTION_RADIUS = false.

(** A Susceptible agent next to an Infected one, after three ticks of
    contact. *)
Definition neighbour : Agent := agent_at 1 INFECTED (vec 105 100) (vec 1 0).
Definition exposed : Agent :=
  set_contact_time (agent_at 0 SUSCEPTIBLE (vec 100 100) (vec 1 0)) {[ 1%nat := 3 ]}.

(** The settings of a simulation that no tick touches. *)
Definition settings_kept (sim sim' : EpidemicSimulation) : Prop :=
  quarantine_zones sim' = quarantine_zones sim ∧
  infection_prob_multiplier sim' = infection_prob_multiplier sim ∧
  recovery_prob_multiplier sim' = recovery_prob_multiplier sim ∧
  vaccination_rate_multiplier sim' = vaccination_rate_multiplier sim ∧
  enable_quarantine sim' = enable_quarantine sim ∧
  running sim' = running sim ∧ paused sim' = paused sim ∧
  next_id sim' = next_id sim.

(** The recovery probability the tick installs in the global
    [RECOVERY_PROB] around each [Agent.update]. *)
Definition effective_recovery_prob (sim : EpidemicSimulation) : Q :=
  Qmin (99 # 100) (global_RECOVERY_PROB sim * recovery_prob_multiplier sim).

(** An agent as [Agent.__init__] creates it in state [st]. *)
Definition fresh_agent (st : AgentState) (a : Agent) : Prop :=
  state a = st ∧ infection_time a = 0 ∧ contact_time a = ∅ ∧
  in_quarantine a = false ∧ quarantine_position a = None ∧ speed a = MOVEMENT_SPEED.

(** What a round of vaccinations may do to an agent: nothing, or take it
    from Susceptible to Immune and change nothing else. *)
Definition vaccinated (a a' : Agent) : Prop :=
  a' = a ∨ (state a = SUSCEPTIBLE ∧ a' = set_state a IMMUNE).

(** [num_to_vaccinate] of [reset_simulation]: the truncated float
    product. *)
Definition num_to_vaccinate `{MathLib} (sim : EpidemicSimulation) : Z :=
  py_int (float_mul (float_mul (inject_Z INITIAL_POPULATION) VACCINATION_RATE)
                    (vaccination_rate_multiplier sim)).

(** What [reset_simulation] leaves in the model, whether it returns or
    raises, the identities being those the allocator of the model hands
    out (see [reset_leaves] for the part that does not depend on them). *)
Definition reset_contract `{MathLib} (sim sim' : EpidemicSimulation) : Prop :=
  length (agents sim') = 200%nat ∧
  aid <$> agents sim' = seq (next_id sim) 200 ∧
  next_id sim' = (next_id sim + 200)%nat ∧
  count_state INFECTED (agents sim') = 5 ∧
  count_state RECOVERED (agents sim') = 0 ∧
  count_state SUSCEPTIBLE (agents sim') + count_state IMMUNE (agents sim') = 195 ∧
  count_state IMMUNE (agents sim') ≤ Z.max 0 (num_to_vaccinate sim) ∧
  Forall (fun a => infection_time a = 0 ∧ contact_time a = ∅ ∧
                   in_quarantine a = false ∧ quarantine_position a = None)
         (agents sim') ∧
  statistics sim' = Statistics_init 500 ∧
  frame_count sim' = 0 ∧
  quarantine_zones sim' = quarantine_zones sim ∧
  infection_prob_multiplier sim' = infection_prob_multiplier sim ∧
  recovery_prob_multiplier sim' = recovery_prob_multiplier sim ∧
  vaccination_rate_multiplier sim' = vaccination_rate_multiplier sim ∧
  enable_quarantine sim' = enable_quarantine sim ∧
  running sim' = running sim ∧ paused sim' = paused sim ∧
  global_RECOVERY_PROB sim' = global_RECOVERY_PROB sim.

(** What [reset_simulation] leaves, whether it returns or raises: a
    population of [INITIAL_POPULATION] newly created agents under pairwise
    distinct identities, of which [INITIAL_INFECTED] are Infected and the
    others Susceptible or Immune, the Immune ones no more than
    [num_to_vaccinate]; fresh statistics, the frame count at 0 and the
    settings untouched. *)
Definition reset_leaves `{MathLib} (sim sim' : EpidemicSimulation) : Prop :=
  length (agents sim') = 200%nat ∧
  NoDup (aid <$> agents sim') ∧
  count_state INFECTED (agents sim') = 5 ∧
  count_state RECOVERED (agents sim') = 0 ∧
  count_state SUSCEPTIBLE (agents sim') + count_state IMMUNE (agents sim') = 195 ∧
  count_state IMMUNE (agents sim') ≤ Z.max 0 (num_to_vaccinate sim) ∧
  Forall (fun a => infection_time a = 0 ∧ contact_time a = ∅ ∧
                   in_quarantine a = false ∧ quarantine_position a = None)
         (agents sim') ∧
  statistics sim' = Statistics_init 500 ∧
  frame_count sim' = 0 ∧
  quarantine_zones sim' = quarantine_zones sim ∧
  infection_prob_multiplier sim' = infection_prob_multiplier sim ∧
  recovery_prob_multiplier sim' = recovery_prob_multiplier sim ∧
  vaccination_rate_multiplier sim' = vaccination_rate_multiplier sim ∧
  enable_quarantine sim' = enable_quarantine sim ∧
  running sim' = running sim ∧ paused sim' = paused sim ∧
  global_RECOVERY_PROB sim' = global_RECOVERY_PROB sim.

(** The ranges [handle_events] keeps the multipliers in. *)
Definition multipliers_in_range (sim : EpidemicSimulation) : Prop :=
  ((1 # 10) <= infection_prob_multiplier sim)%Q ∧ (infection_prob_multiplier sim <= 2)%Q ∧
  ((1 # 10) <= recovery_prob_multiplier sim)%Q ∧ (recovery_prob_multiplier sim <= 2)%Q ∧
  (0 <= vaccination_rate_multiplier sim)%Q ∧ (vaccination_rate_multiplier sim <= 2)%Q.

(** At most [INITIAL_POPULATION] agents, under pairwise distinct
    identities. *)
Definition population_ok (sim : EpidemicSimulation) : Prop :=
  (length (agents sim) ≤ 200)%nat ∧ NoDup (aid <$> agents sim).

Section MainLoop.
Context `{MathLib}.

(** [EpidemicSimulation.run] over the events of successive frames, the
    clock and the display left aside: while [running], handle the events
    of the frame, then update; a raise ends the run. *)
Fixpoint run (self : EpidemicSimulation) (frames : list (list Event))
    : Rand (outcome unit * EpidemicSimulation) :=
  match frames with
  | [] => mret (Returned (), self)
  | events :: rest =>
      if running self then
        '(res, self) ← handle_events self events;
        match res with
        | Raised e => mret (Raised e, self)
        | Returned _ =>
            '(res, self) ← EpidemicSimulation_update self;
            match res with
            | Raised e => mret (Raised e, self)
            | Returned _ => run self rest
            end
        end
      else mret (Returned (), self)
  end.
End MainLoop.

(** A burst of key presses, and the frames of a short session. *)
Definition key_burst : list Event :=
  replicate 15 (KEYDOWN K_UP) ++ replicate 25 (KEYDOWN K_s)
  ++ [KEYDOWN K_LEFT; KEYDOWN K_q; KEYDOWN K_w; OTHER_EVENT].

Definition short_session : list (list Event) :=
  [[KEYDOWN K_UP]; []; [KEYDOWN K_v; KEYDOWN K_q]; [KEYDOWN K_2]; []; [QUIT]; []].

(** The box agents are created in, 50 units inside the canvas. *)
Definition in_spawn_box (p : Vector2) : Prop :=
  (50 <= vx p)%Q ∧ (vx p <= WIDTH - 50)%Q ∧
  (50 <= vy p)%Q ∧ (vy p <= HEIGHT - GRAPH_HEIGHT - 50)%Q.

(** The cumulative recovery counter agrees with the last sample, which
    does not exceed the number of Recovered agents. *)
Definition recoveries_tracked (sim : EpidemicSimulation) : Prop :=
  total_recoveries (statistics sim) = prev_recovered (statistics sim) ∧
  prev_recovered (statistics sim) ≤ count_state RECOVERED (agents sim).

(** A simulation one tick before a sample, with one agent Recovered since
    the last one. *)
Definition before_sample : EpidemicSimulation :=
  set_frame_count
    (simulation_of [alice; set_state (agent_at 1 INFECTED (vec 500 300) (vec 0 1)) RECOVERED] [])
    4.

Section Turns.
Context `{MathLib}.

(** The loop "Update all agents", agent by agent: each agent of [todo] is
    updated in turn against the list as updated so far, with the supply
    threaded; [outs] pairs what each [update] returned (True to survive,
    False to die) with the agent it left. *)
Inductive updates_in_turn (zones : list QuarantineZone) (enable : bool) (p : Q)
    : list Agent → list Agent → Rng → list (bool * Agent) → Rng → Prop :=
| turn_done done g : updates_in_turn zones enable p done [] g [] g
| turn_next done agent rest g b agent' g1 outs g2 :
    update agent (done ++ agent :: rest) zones enable p g = (Returned b, agent', g1) →
    updates_in_turn zones enable p (done ++ [agent']) rest g1 outs g2 →
    updates_in_turn zones enable p done (agent :: rest) g ((b, agent') :: outs) g2.
End Turns.

(** The agents whose update returned True, and those whose update
    returned False. *)
Definition survivors_of (outs : list (bool * Agent)) : list Agent :=
  snd <$> filter (fun o => fst o = true) outs.
Definition deaths_of (outs : list (bool * Agent)) : list Agent :=
  snd <$> filter (fun o => fst o = false) outs.

(** * Properties *)

Ltac rand_unfold :=
  unfold mbind, rand_bind, mret, rand_ret, uniform, randbelow, random in *.

(** Case analysis on the next test of a computation under scrutiny. *)
Ltac split_if :=
  match goal with
  | |- context [if ?b then _ else _] => destruct b eqn:?
  | |- context [match ?x with _ => _ end] => destruct x eqn:?
  end.

(** ** The agent's own operations *)

Lemma same_health_refl a : same_health a a.
Proof. by repeat split. Qed.

Lemma same_health_trans a b c : same_health a b → same_health b c → same_health a c.
Proof.
  unfold same_health. intros (?&?&?&?&?&?) (?&?&?&?&?&?).
  repeat split; congruence.
Qed.

Section AgentFacts.
Context `{MathLib}.

Lemma update_finish_spec self g :
  ∃ a' g', update_finish self g = (Returned true, a', g') ∧ same_health self a'.
Proof.
  unfold update_finish, random_heading. rand_unfold.
  destruct (Qltb _ _); eexists _, _; (split; [reflexivity | by repeat split]).
Qed.

Lemma update_move_spec self agents g :
  ∃ res a' g', update_move self agents g = (res, a', g') ∧ same_health self a' ∧
               res ≠ Returned false.
Proof.
  unfold update_move, random_heading, choice. rand_unfold.
  repeat split_if;
    try (match goal with
         | |- context [update_finish ?a ?g] =>
             destruct (update_finish_spec a g) as (a' & g' & -> & Hs)
         end;
         eexists _, _, _; split; [reflexivity | split; [| discriminate]];
         eapply same_health_trans; [| exact Hs]; by repeat split);
    eexists _, _, _; (split; [reflexivity | split; [by repeat split | discriminate]]).
Qed.
End AgentFacts.

Lemma same_health_state a a' : same_health a a' → same_state a a'.
Proof. unfold same_health, same_state. tauto. Qed.

Lemma same_state_trans a b c : same_state a b → same_state b c → same_state a c.
Proof.
  unfold same_state. intros (?&?&?&?) (?&?&?&?). repeat split; congruence.
Qed.

Section Transitions.
Context `{MathLib}.

Lemma quarantine_scan_spec self zones g :
  ∃ a' g', quarantine_scan self zones g = (a', g') ∧ same_state self a' ∧
    (a' = self ∨ in_quarantine a' = true).
Proof.
  induction zones as [|zone rest IH]; simpl.
  - eexists _, _. split; [reflexivity|]. split; [by repeat split | by left].
  - destruct (has_space zone); [|exact IH].
    unfold get_position. rand_unfold.
    eexists _, _. split; [reflexivity|]. split; [by repeat split | by right].
Qed.

Lemma update_quarantine_spec self zones enable g :
  ∃ a' g', update_quarantine self zones enable g = (a', g') ∧ same_state self a'.
Proof.
  unfold update_quarantine. destruct (enable && _).
  - destruct (quarantine_scan_spec self zones g) as (a' & g' & -> & Hs & _). eauto.
  - eexists _, _. split; [reflexivity | by repeat split].
Qed.

(** After the infection branch: the quarantine scan, then the movement. *)
Lemma quarantine_then_move self zones enable agents g :
  ∃ res a' g',
    (self ← update_quarantine self zones enable; update_move self agents) g
      = (res, a', g') ∧
    same_state self a' ∧ res ≠ Returned false.
Proof.
  rand_unfold.
  destruct (update_quarantine_spec self zones enable g) as (a1 & g1 & -> & Hs1).
  destruct (update_move_spec a1 agents g1) as (res & a2 & g2 & -> & Hs2 & Hres).
  eexists _, _, _. split; [reflexivity|]. split; [|done].
  eapply same_state_trans; [exact Hs1 | by apply same_health_state].
Qed.

Lemma update_edge self agents zones enable p g :
  health_edge (state self) (fate_of_update (fst (update self agents zones enable p g))).
Proof.
  unfold update, fate_of_update.
  destruct (decide (state self = INFECTED)) as [Hi|Hn].
  - destruct (RECOVERY_TIME <=? _).
    + rand_unfold. destruct (Qltb _ p).
      * match goal with
        | |- context [update_quarantine ?a zones enable ?gg] =>
            destruct (quarantine_then_move a zones enable agents gg)
              as (res & a' & g' & Heq & (_ & Hs & _) & Hres)
        end.
        rand_unfold. rewrite Heq. simpl in *. rewrite Hi, Hs.
        destruct res as [[|]|]; try done; constructor.
      * simpl. rewrite Hi. constructor.
    + rand_unfold.
      match goal with
      | |- context [update_quarantine ?a zones enable ?gg] =>
          destruct (quarantine_then_move a zones enable agents gg)
            as (res & a' & g' & Heq & (_ & Hs & _) & Hres)
      end.
      rand_unfold. rewrite Heq. simpl in *. rewrite Hs.
      destruct res as [[|]|]; try done; constructor.
  - destruct (update_move_spec self agents g) as (res & a' & g' & -> & (_ & Hs & _) & Hres).
    simpl. rewrite Hs. destruct res as [[|]|]; try done; constructor.
Qed.

Lemma check_infection_loop_state self agents g :
  let a' := fst (check_infection_loop self agents g) in
  aid a' = aid self ∧ (state a' = state self ∨ state a' = INFECTED).
Proof.
  revert self g. induction agents as [|agent rest IH]; intros self g; simpl.
  - auto.
  - destruct (_ && _); [|apply IH].
    destruct (Qltb _ INFECTION_RADIUS).
    + rand_unfold. destruct (Qltb _ _); simpl; [auto|].
      match goal with |- context [check_infection_loop ?a rest ?g'] =>
        destruct (IH a g') as [? ?] end.
      simpl in *. auto.
    + destruct (contact_time self !! aid agent);
        match goal with |- context [check_infection_loop ?a rest ?g'] =>
          destruct (IH a g') as [? ?] end; simpl in *; auto.
Qed.

Lemma check_infection_edge self agents g :
  health_edge (state self) (Alive (state (fst (check_infection self agents g)))).
Proof.
  unfold check_infection. destruct (decide _) as [Hs|Hn]; [|constructor].
  destruct (check_infection_loop_state self agents g) as [_ [-> | ->]];
    rewrite ?Hs; constructor.
Qed.
End Transitions.

Lemma vaccinate_edge self g :
  health_edge (state self) (Alive (state (snd (fst (vaccinate self g))))).
Proof.
  unfold vaccinate. destruct (decide _) as [Hs|Hn]; [|constructor].
  rand_unfold. destruct (Qltb _ _); simpl; rewrite ?Hs; constructor.
Qed.

(** C6. Under the per-tick update, the contact check and the vaccination,
    the health state of an agent stays where it is or follows one of the
    edges Susceptible→Infected, Susceptible→Immune, Infected→Recovered,
    Infected→removed; from Recovered and from Immune no edge leaves. *)
Theorem health_state_moves_along_edges `{MathLib} :
  (∀ self agents zones enable p g,
     health_edge (state self) (fate_of_update (fst (update self agents zones enable p g)))) ∧
  (∀ self agents g,
     health_edge (state self) (Alive (state (fst (check_infection self agents g))))) ∧
  (∀ self g,
     health_edge (state self) (Alive (state (snd (fst (vaccinate self g)))))) ∧
  (∀ s f, health_edge s f → s = RECOVERED ∨ s = IMMUNE → f = Alive s).
Proof.
  split; [exact update_edge|]. split; [exact check_infection_edge|].
  split; [exact vaccinate_edge|].
  intros s f He [-> | ->]; by inversion He.
Qed.

(** C10. [vaccinate] on an agent that is not Susceptible returns False,
    leaves the agent as it was and draws nothing.  On a Susceptible agent
    it consumes one draw: a draw below VACCINATION_SUCCESS_RATE makes the
    agent Immune, changes nothing else and returns True; any other draw
    (a failed trial) returns False and changes nothing.  So it returns
    True exactly when the agent goes from Susceptible to Immune, and
    whenever it returns False the agent is unchanged. *)
Theorem vaccinate_spec (self self' : Agent) (g g' : Rng) (b : bool) :
  vaccinate self g = (b, self', g') →
  (state self ≠ SUSCEPTIBLE → b = false ∧ self' = self ∧ g' = g) ∧
  (state self = SUSCEPTIBLE →
   g' = next_draw g ∧
   (Qltb (rng_draws g (rng_pos g)) VACCINATION_SUCCESS_RATE = true →
    b = true ∧ self' = set_state self IMMUNE) ∧
   (Qltb (rng_draws g (rng_pos g)) VACCINATION_SUCCESS_RATE = false →
    b = false ∧ self' = self)) ∧
  (b = true ↔ state self = SUSCEPTIBLE ∧ state self' = IMMUNE) ∧
  (b = false → self' = self).
Proof.
  unfold vaccinate. destruct (decide _) as [Hs|Hn].
  - rand_unfold. unfold next_draw.
    destruct (Qltb _ _) eqn:Hd; intros [= <- <- <-]; simpl.
    + split; [done|]. split; [by repeat split|]. split; [by split | done].
    + split; [done|]. split; [by repeat split|]. split; [|done].
      rewrite Hs. split; [done | by intros [_ ?]].
  - intros [= <- <- <-]. split; [done|]. split; [done|].
    split; [split; [done | by intros [? _]] | done].
Qed.

Lemma vaccinate_spec_witness :
  let failed := vaccinate alice (constant_draws (95 # 100)) in
  let passed := vaccinate alice halves in
  (fst (fst failed) = false ∧ snd (fst failed) = alice) ∧
  (fst (fst passed) = true ∧ snd (fst passed) = set_state alice IMMUNE).
Proof.
  intros failed passed. split.
  - destruct (vaccinate_spec alice (snd (fst failed)) (constant_draws (95 # 100))
                (snd failed) (fst (fst failed)) eq_refl) as (_ & Hs & _).
    destruct (Hs eq_refl) as (_ & _ & Hfail). apply Hfail. reflexivity.
  - destruct (vaccinate_spec alice (snd (fst passed)) halves
                (snd passed) (fst (fst passed)) eq_refl) as (_ & Hs & _).
    destruct (Hs eq_refl) as (_ & Hpass & _). apply Hpass. reflexivity.
Defined.

(** ** Statistics *)

Lemma truediv_guarded (a b : Z) :
  truediv a (Z.max 1 b) = Returned (inject_Z a / inject_Z (Z.max 1 b))%Q.
Proof.
  unfold truediv. destruct (Z.eqb_spec (Z.max 1 b) 0) as [E|_]; [lia | reflexivity].
Qed.

Lemma Statistics_update_returns (self : Statistics) (agents : list Agent) :
  Statistics_update self agents =
    (Returned (),
     record_rates
       (append_counts self (count_state SUSCEPTIBLE agents) (count_state INFECTED agents)
                      (count_state RECOVERED agents) (count_state IMMUNE agents))
       (count_state INFECTED agents) (count_state RECOVERED agents)
       (new_infections_of self (count_state INFECTED agents) (count_state RECOVERED agents))
       (new_recoveries_of self (count_state RECOVERED agents))
       (infection_rate_of self agents) (recovery_rate_of self agents)).
Proof.
  unfold Statistics_update, infection_rate_of, recovery_rate_of.
  rewrite truediv_guarded.
  destruct (0 <? count_state INFECTED agents); [rewrite truediv_guarded|]; reflexivity.
Qed.

(** C9. [Statistics.update] completes without raising on every population,
    the empty one included: the infection rate is taken over
    [max(1, len(agents))], which is 1 on the empty population, and the
    recovery rate is 0 whenever no agent is Infected. *)
Theorem Statistics_update_never_divides_by_zero (self : Statistics) (agents : list Agent) :
  ∃ quotient recovery_rate,
    truediv (new_infections_of self (count_state INFECTED agents)
                               (count_state RECOVERED agents))
            (Z.max 1 (Z.of_nat (length agents)))
      = Returned quotient ∧
    Statistics_update self agents =
      (Returned (),
       record_rates
         (append_counts self (count_state SUSCEPTIBLE agents) (count_state INFECTED agents)
                        (count_state RECOVERED agents) (count_state IMMUNE agents))
         (count_state INFECTED agents) (count_state RECOVERED agents)
         (new_infections_of self (count_state INFECTED agents) (count_state RECOVERED agents))
         (new_recoveries_of self (count_state RECOVERED agents))
         (quotient * 100)%Q recovery_rate) ∧
    (agents = [] → Z.max 1 (Z.of_nat (length agents)) = 1 ∧ recovery_rate = 0%Q) ∧
    (count_state INFECTED agents = 0 → recovery_rate = 0%Q).
Proof.
  eexists _, (recovery_rate_of self agents).
  split; [apply truediv_guarded|].
  split; [apply Statistics_update_returns|].
  split.
  - intros ->. split; reflexivity.
  - intros E. unfold recovery_rate_of. by rewrite E.
Qed.

(** ** The tick *)

Lemma with_deaths_0 st : with_deaths st 0 = st.
Proof. destruct st. unfold with_deaths. simpl. by rewrite Z.add_0_r. Qed.

Lemma add_death_with_deaths st d : add_death (with_deaths st d) = with_deaths st (d + 1).
Proof. unfold add_death, with_deaths. simpl. by rewrite Z.add_assoc. Qed.

Section Tick.
Context `{MathLib}.

(** The loop over the agents: every agent is handled once; on a normal
    end each one either survives or is counted dead, and nothing else
    of the statistics moves. *)
Lemma update_agents_spec zones enable p todo : ∀ st g,
  ∃ res st' rest g' d,
    update_agents zones enable p st todo g = (res, st', rest, g') ∧
    0 ≤ d ∧
    lp_statistics st' = with_deaths (lp_statistics st) d ∧
    length (lp_done st' ++ rest) = length (lp_done st ++ todo) ∧
    (length (lp_surviving st') ≤ length (lp_surviving st) + length todo)%nat ∧
    (res = Returned () →
     Z.of_nat (length (lp_surviving st')) + d =
       Z.of_nat (length (lp_surviving st)) + Z.of_nat (length todo)).
Proof.
  induction todo as [|agent rest IH]; intros st g; simpl.
  - exists (Returned ()), st, [], g, 0. rewrite with_deaths_0.
    repeat split; try done; lia.
  - rand_unfold.
    destruct (update agent (lp_done st ++ agent :: rest) zones enable p g)
      as [[res agent'] g1].
    destruct res as [[|]|e].
    + match goal with |- context [update_agents _ _ _ ?s rest g1] =>
        destruct (IH s g1) as (res & st' & rest' & g' & d & -> & Hd & Hst & Hlen & Hle & Hret)
      end.
      exists res, st', rest', g', d.
      split; [reflexivity|]. split; [done|]. split; [done|].
      simpl in *. rewrite ?length_app in *. simpl in *.
      split; [lia|]. split; [lia|]. intros Hr. specialize (Hret Hr). lia.
    + match goal with |- context [update_agents _ _ _ ?s rest g1] =>
        destruct (IH s g1) as (res & st' & rest' & g' & d & -> & Hd & Hst & Hlen & Hle & Hret)
      end.
      exists res, st', rest', g', (1 + d).
      split; [reflexivity|]. split; [lia|].
      split.
      { rewrite Hst. simpl. unfold add_death, with_deaths. simpl. f_equal. lia. }
      simpl in *. rewrite ?length_app in *. simpl in *.
      split; [lia|]. split; [lia|]. intros Hr. specialize (Hret Hr). lia.
    + eexists (Raised e), _, rest, g1, 0. simpl. rewrite with_deaths_0.
      split; [reflexivity|]. split; [lia|]. split; [done|].
      simpl. rewrite !length_app. simpl.
      split; [lia|]. split; [lia|]. discriminate.
Qed.

Lemma infection_pass_length todo : ∀ done g,
  length (fst (infection_pass done todo g)) = (length done + length todo)%nat.
Proof.
  induction todo as [|agent rest IH]; intros done g; simpl.
  - lia.
  - rand_unfold. destruct (check_infection agent _ g) as [a' g1].
    rewrite IH, length_app. simpl. lia.
Qed.
End Tick.

Section TickFacts.
Context `{MathLib}.

Lemma tick_paused sim g :
  paused sim = true → EpidemicSimulation_update sim g = (Returned (), sim, g).
Proof. intros Hp. unfold EpidemicSimulation_update. by rewrite Hp. Qed.

(** One running tick: [d] agents died; the zones are as before; on a
    normal end the statistics are sampled when the new frame count is a
    multiple of 5 and otherwise only count the deaths. *)
Lemma tick_running sim g :
  paused sim = false →
  ∃ res sim' g' d,
    EpidemicSimulation_update sim g = (res, sim', g') ∧
    0 ≤ d ∧
    quarantine_zones sim' = quarantine_zones sim ∧
    frame_count sim' = frame_count sim + 1 ∧
    (length (agents sim') ≤ length (agents sim))%nat ∧
    (res = Returned () →
     Z.of_nat (length (agents sim')) + d = Z.of_nat (length (agents sim)) ∧
     statistics sim' =
       if frame_count sim' mod 5 =? 0
       then snd (Statistics_update (with_deaths (statistics sim) d) (agents sim'))
       else with_deaths (statistics sim) d) ∧
    (res ≠ Returned () → statistics sim' = with_deaths (statistics sim) d).
Proof.
  intros Hp. unfold EpidemicSimulation_update. rewrite Hp. rand_unfold.
  match goal with |- context [update_agents ?z ?e ?p ?s ?t g] =>
    destruct (update_agents_spec z e p t s g)
      as (res & lp & rest & g1 & d & -> & Hd & Hst & Hlen & Hle & Hret)
  end.
  simpl in *.
  destruct res as [[]|e].
  - specialize (Hret eq_refl).
    destruct (infection_pass [] (lp_surviving lp) g1) as [survivors g2] eqn:Hpass.
    pose proof (infection_pass_length (lp_surviving lp) [] g1) as Hpl.
    rewrite Hpass in Hpl. simpl in Hpl.
    simpl.
    destruct (_ mod 5 =? 0) eqn:Hmod.
    + rewrite Statistics_update_returns.
      eexists _, _, _, d. split; [reflexivity|]. simpl.
      split; [lia|]. split; [done|]. split; [done|]. split; [lia|].
      split; [|done]. intros _. split; [lia|].
      rewrite Hmod, Statistics_update_returns, Hst. reflexivity.
    + eexists _, _, _, d. split; [reflexivity|]. simpl.
      split; [lia|]. split; [done|]. split; [done|]. split; [lia|].
      split; [|done]. intros _. split; [lia|]. by rewrite Hmod.
  - eexists _, _, _, d. split; [reflexivity|]. simpl.
    split; [lia|]. split; [done|]. split; [done|]. split; [lia|].
    split; [discriminate | done].
Qed.
End TickFacts.

Lemma Statistics_update_death_count st l :
  death_count (snd (Statistics_update st l)) = death_count st.
Proof. by rewrite Statistics_update_returns. Qed.

Lemma Statistics_update_totals st l :
  total_infections st ≤ total_infections (snd (Statistics_update st l)) ∧
  total_recoveries st ≤ total_recoveries (snd (Statistics_update st l)).
Proof.
  rewrite Statistics_update_returns. simpl.
  split; (destruct (0 <? _) eqn:E; [apply Z.ltb_lt in E|]; lia).
Qed.

Lemma survivors_of_cons b a outs :
  survivors_of ((b, a) :: outs) = if b then a :: survivors_of outs else survivors_of outs.
Proof. unfold survivors_of. rewrite filter_cons. by destruct b. Qed.

Lemma deaths_of_cons b a outs :
  deaths_of ((b, a) :: outs) = if b then deaths_of outs else a :: deaths_of outs.
Proof. unfold deaths_of. rewrite filter_cons. by destruct b. Qed.

Section Turns_of_the_loop.
Context `{MathLib}.

(** A loop that ends normally has updated every agent in turn; its
    survivors are the agents whose update returned True and its deaths
    those whose update returned False. *)
Lemma update_agents_turns zones enable p todo : ∀ st g st' rest g',
  update_agents zones enable p st todo g = (Returned (), st', rest, g') →
  ∃ outs,
    updates_in_turn zones enable p (lp_done st) todo g outs g' ∧
    lp_surviving st' = lp_surviving st ++ survivors_of outs ∧
    lp_statistics st' =
      with_deaths (lp_statistics st) (Z.of_nat (length (deaths_of outs))).
Proof.
  induction todo as [|agent rest0 IH]; intros st g st' rest g'; simpl.
  - unfold mret, rand_ret. intros [= <- _ <-]. exists [].
    split; [constructor|]. split; [by rewrite app_nil_r|].
    by rewrite with_deaths_0.
  - rand_unfold.
    destruct (update agent (lp_done st ++ agent :: rest0) zones enable p g)
      as [[res agent'] g1] eqn:Eu.
    destruct res as [[|]|e]; [| |discriminate].
    + intros Hloop. destruct (IH _ _ _ _ _ Hloop) as (outs & Hturn & Hsurv & Hstat).
      cbn [lp_done lp_surviving lp_statistics] in *.
      exists ((true, agent') :: outs).
      rewrite survivors_of_cons, deaths_of_cons.
      split; [by econstructor|].
      split; [rewrite Hsurv, <- app_assoc; reflexivity|].
      exact Hstat.
    + intros Hloop. destruct (IH _ _ _ _ _ Hloop) as (outs & Hturn & Hsurv & Hstat).
      cbn [lp_done lp_surviving lp_statistics] in *.
      exists ((false, agent') :: outs).
      rewrite survivors_of_cons, deaths_of_cons.
      split; [by econstructor|].
      split; [exact Hsurv|].
      rewrite Hstat. unfold add_death, with_deaths. cbn [length death_count].
      f_equal. lia.
Qed.

Lemma tick_turns sim g :
  paused sim = false →
  fst (fst (EpidemicSimulation_update sim g)) = Returned () →
  ∃ outs g1,
    updates_in_turn (quarantine_zones sim) (enable_quarantine sim)
                    (effective_recovery_prob sim) [] (agents sim) g outs g1 ∧
    agents (snd (fst (EpidemicSimulation_update sim g)))
      = fst (infection_pass [] (survivors_of outs) g1) ∧
    length (agents (snd (fst (EpidemicSimulation_update sim g))))
      = length (survivors_of outs) ∧
    death_count (statistics (snd (fst (EpidemicSimulation_update sim g))))
      = death_count (statistics sim) + Z.of_nat (length (deaths_of outs)).
Proof.
  intros Hp. unfold EpidemicSimulation_update. rewrite Hp. rand_unfold.
  match goal with |- context [update_agents ?z ?e ?q ?s ?t g] =>
    pose proof (update_agents_turns z e q t s g) as Hturns;
    destruct (update_agents z e q s t g) as [[[res lp] rest] g1]
  end.
  destruct res as [[]|e]; [|simpl; discriminate].
  destruct (Hturns _ _ _ eq_refl) as (outs & Hturn & Hsurv & Hstat).
  simpl in Hsurv, Hstat, Hturn.
  pose proof (infection_pass_length (lp_surviving lp) [] g1) as Hlen.
  destruct (infection_pass [] (lp_surviving lp) g1) as [survivors g2] eqn:Hpass.
  simpl in Hlen. intros _. exists outs, g1.
  split; [exact Hturn|].
  rewrite <- Hsurv, Hpass.
  simpl. destruct (_ mod 5 =? 0).
  - rewrite Statistics_update_returns. simpl. rewrite Hstat. by repeat split.
  - simpl. rewrite Hstat. by repeat split.
Qed.
End Turns_of_the_loop.

(** C7. A tick never enlarges the population, whatever its outcome; when
    it ends normally the population has shrunk by exactly the number of
    deaths counted during the tick.  In a running tick that ends normally
    every agent is updated once, in turn; the agents the contact pass is
    run on, in order and in the same number as the population after the
    tick, are exactly those whose update returned True, and one death is
    counted for each agent whose update returned False: an agent leaves
    the population only by the death outcome of its update, and no phase
    adds one.  A paused tick changes nothing. *)
Theorem population_never_grows `{MathLib} (sim : EpidemicSimulation) (g : Rng) :
  let r := EpidemicSimulation_update sim g in
  (length (agents (snd (fst r))) ≤ length (agents sim))%nat ∧
  (fst (fst r) = Returned () →
   Z.of_nat (length (agents (snd (fst r)))) =
     Z.of_nat (length (agents sim))
     - (death_count (statistics (snd (fst r))) - death_count (statistics sim))) ∧
  (paused sim = false → fst (fst r) = Returned () →
   ∃ outs g1,
     updates_in_turn (quarantine_zones sim) (enable_quarantine sim)
                     (effective_recovery_prob sim) [] (agents sim) g outs g1 ∧
     agents (snd (fst r)) = fst (infection_pass [] (survivors_of outs) g1) ∧
     length (agents (snd (fst r))) = length (survivors_of outs) ∧
     death_count (statistics (snd (fst r)))
       = death_count (statistics sim) + Z.of_nat (length (deaths_of outs))) ∧
  (paused sim = true → snd (fst r) = sim).
Proof.
  destruct (paused sim) eqn:Hp.
  - rewrite (tick_paused sim g Hp). simpl.
    split; [lia|]. split; [intros _; lia|]. split; [discriminate | done].
  - split; [|split; [|split; [|discriminate]]].
    + by destruct (tick_running sim g Hp)
        as (res & sim' & g' & d & -> & _ & _ & _ & Hle & _).
    + destruct (tick_running sim g Hp)
        as (res & sim' & g' & d & -> & Hd & _ & _ & Hle & Hret & _).
      simpl. intros Hr. destruct (Hret Hr) as [Hlen ->].
      destruct (_ mod 5 =? 0); rewrite ?Statistics_update_death_count; simpl; lia.
    + intros _. by apply tick_turns.
Qed.

Lemma population_never_grows_witness :
  let sim := set_scenario (simulation_of [alice; due] []) 1 1 1 false in
  let sim' := snd (fst (@EpidemicSimulation_update approx_math sim
                          (constant_draws (8 # 10)))) in
  aid <$> agents sim = [0; 4]%nat ∧ aid <$> agents sim' = [0]%nat ∧
  ∃ outs g1,
    @updates_in_turn approx_math (quarantine_zones sim) (enable_quarantine sim)
      (effective_recovery_prob sim) [] (agents sim) (constant_draws (8 # 10)) outs g1 ∧
    agents sim' = fst (@infection_pass approx_math [] (survivors_of outs) g1) ∧
    length (agents sim') = length (survivors_of outs) ∧
    death_count (statistics sim')
      = death_count (statistics sim) + Z.of_nat (length (deaths_of outs)).
Proof.
  intros sim sim'. split; [reflexivity|]. split; [vm_compute; reflexivity|].
  destruct (@population_never_grows approx_math sim (constant_draws (8 # 10)))
    as (_ & _ & Hturns & _).
  apply Hturns; [reflexivity | vm_compute; reflexivity].
Defined.

Lemma Statistics_update_sampled st l : sampled st l (snd (Statistics_update st l)).
Proof. rewrite Statistics_update_returns. by repeat split. Qed.

(** C8. A running tick that ends normally samples the statistics exactly
    when the incremented frame count is a multiple of 5; the sample takes
    new_infections = max(0, Δinfected + (previous recovered − recovered))
    and new_recoveries = max(0, Δrecovered) against the previous sample
    and adds each to its cumulative counter only when positive; off the
    stride nothing but the death counter moves.  The two cumulative
    counters and the death counter never decrease over a tick. *)
Theorem statistics_sampled_on_stride `{MathLib}
    (sim sim' : EpidemicSimulation) (g g' : Rng) (res : outcome unit) :
  EpidemicSimulation_update sim g = (res, sim', g') →
  (total_infections (statistics sim) ≤ total_infections (statistics sim') ∧
   total_recoveries (statistics sim) ≤ total_recoveries (statistics sim') ∧
   death_count (statistics sim) ≤ death_count (statistics sim')) ∧
  (paused sim = true → sim' = sim) ∧
  (paused sim = false → res = Returned () →
   ∃ d, 0 ≤ d ∧ death_count (statistics sim') = death_count (statistics sim) + d ∧
     if (frame_count sim + 1) mod 5 =? 0
     then sampled (statistics sim) (agents sim') (statistics sim')
     else statistics sim' = with_deaths (statistics sim) d).
Proof.
  intros Hrun. destruct (paused sim) eqn:Hp.
  - rewrite (tick_paused sim g Hp) in Hrun. injection Hrun as <- <- <-.
    split; [lia|]. split; [done | discriminate].
  - destruct (tick_running sim g Hp)
      as (res0 & sim0 & g0 & d & Heq & Hd & _ & Hfc & _ & Hret & Hraise).
    rewrite Heq in Hrun. injection Hrun as -> -> ->.
    assert (Hmono :
      total_infections (statistics sim) ≤ total_infections (statistics sim') ∧
      total_recoveries (statistics sim) ≤ total_recoveries (statistics sim') ∧
      death_count (statistics sim) ≤ death_count (statistics sim')).
    { destruct res as [[]|e].
      - destruct (Hret eq_refl) as [_ ->].
        destruct (_ mod 5 =? 0).
        + pose proof (Statistics_update_totals (with_deaths (statistics sim) d) (agents sim')).
          rewrite Statistics_update_death_count. simpl in *. lia.
        + simpl. lia.
      - rewrite Hraise by discriminate. simpl. lia. }
    split; [exact Hmono|]. split; [discriminate|].
    intros _ Hr. destruct (Hret Hr) as [_ Hst]. exists d. split; [done|].
    rewrite <- Hfc. rewrite Hst.
    destruct (_ mod 5 =? 0).
    + split; [by rewrite Statistics_update_death_count|].
      exact (Statistics_update_sampled (with_deaths (statistics sim) d) (agents sim')).
    + split; reflexivity.
Qed.

(** ** Runs of the engine on small populations *)

Lemma statistics_sampled_on_stride_witness :
  let sim := set_frame_count two_agents 4 in
  let sim' := snd (fst (@EpidemicSimulation_update approx_math sim halves)) in
  ∃ d, 0 ≤ d ∧ death_count (statistics sim') = death_count (statistics sim) + d ∧
       sampled (statistics sim) (agents sim') (statistics sim').
Proof.
  intros sim sim'.
  destruct (@statistics_sampled_on_stride approx_math sim sim' halves
              (snd (@EpidemicSimulation_update approx_math sim halves)) (Returned ()))
    as (_ & _ & Hs).
  - vm_compute. reflexivity.
  - apply Hs; reflexivity.
Defined.

(** ** The infection multiplier *)

(** The tick computes [effective_infection_prob] and never uses it: two
    simulations that differ only in the infection multiplier run the same
    tick. *)
Lemma tick_ignores_infection_multiplier `{MathLib} sim m g :
  EpidemicSimulation_update (set_infection_prob_multiplier sim m) g =
    let '(res, sim', g') := EpidemicSimulation_update sim g in
    (res, set_infection_prob_multiplier sim' m, g').
Proof.
  unfold EpidemicSimulation_update. simpl.
  destruct (paused sim); [reflexivity|].
  rand_unfold. simpl.
  destruct (update_agents _ _ _ _ _ g) as [[[res lp] rest] g1].
  destruct res as [[]|e]; [|reflexivity].
  destruct (infection_pass [] (lp_surviving lp) g1) as [survivors g2]. simpl.
  destruct (_ mod 5 =? 0); [|reflexivity].
  destruct (Statistics_update _ _) as [res st]. reflexivity.
Qed.

(** C1. The per-contact infection chance is the base probability times
    (1 + contact-duration × 0.01) and is not scaled by the infection
    multiplier: the tick is the same under every value of the multiplier,
    and with the multiplier at 2.0 a Susceptible agent in contact for one
    tick stays Susceptible on the draw 0.03, which lies above
    0.02 × 1.01 and below 0.02 × 2.0 × 1.01. *)
Theorem infection_multiplier_not_applied :
  (∀ (M : MathLib) sim m g,
     EpidemicSimulation_update (set_infection_prob_multiplier sim m) g =
       let '(res, sim', g') := EpidemicSimulation_update sim g in
       (res, set_infection_prob_multiplier sim' m, g')) ∧
  let sim' := snd (fst (@EpidemicSimulation_update approx_math
                          doubled_infection fifth_draw_low)) in
  infection_prob_multiplier doubled_infection = 2%Q ∧
  state <$> agents sim' = [SUSCEPTIBLE; INFECTED] ∧
  (contact_time <$> agents sim' !! 0%nat) = Some {[ 1%nat := 1 ]} ∧
  rng_draws fifth_draw_low 4 = (3 # 100)%Q ∧
  Qltb (3 # 100) (infection_chance 1) = false ∧
  Qltb (3 # 100)
       (BASE_INFECTION_PROB * infection_prob_multiplier doubled_infection
        * (1 + inject_Z 1 * (1 # 100)))%Q = true.
Proof.
  split.
  - intros M sim m g. apply tick_ignores_infection_multiplier.
  - vm_compute. repeat split; reflexivity.
Qed.

(** ** Quarantine *)

Lemma tick_keeps_zones `{MathLib} sim g :
  quarantine_zones (snd (fst (EpidemicSimulation_update sim g))) = quarantine_zones sim.
Proof.
  destruct (paused sim) eqn:Hp.
  - by rewrite (tick_paused sim g Hp).
  - destruct (tick_running sim g Hp) as (res & sim' & g' & d & -> & _ & Hz & _).
    exact Hz.
Qed.

(** C2. Joining a zone does not change its occupancy: no tick changes the
    zone list at all, and in a simulation whose only zone has capacity 1
    two Infected agents join it in the same tick while its count stays
    at 0. *)
Theorem zone_occupancy_not_incremented :
  (∀ (M : MathLib) sim g,
     quarantine_zones (snd (fst (EpidemicSimulation_update sim g))) =
       quarantine_zones sim) ∧
  let sim' := snd (fst (@EpidemicSimulation_update approx_math one_place halves)) in
  enable_quarantine one_place = true ∧
  state <$> agents one_place = [INFECTED; INFECTED] ∧
  in_quarantine <$> agents one_place = [false; false] ∧
  capacity <$> quarantine_zones one_place = [1] ∧
  current_count <$> quarantine_zones one_place = [0] ∧
  in_quarantine <$> agents sim' = [true; true] ∧
  current_count <$> quarantine_zones sim' = [0].
Proof.
  split.
  - intros M sim g. apply tick_keeps_zones.
  - vm_compute. repeat split; reflexivity.
Qed.

Lemma quarantine_scan_joins `{MathLib} self zones g :
  (∃ zone, zone ∈ zones ∧ has_space zone = true) →
  in_quarantine (fst (quarantine_scan self zones g)) = true ∧
  state (fst (quarantine_scan self zones g)) = state self.
Proof.
  intros (zone & Hin & Hsp).
  induction zones as [|z rest IH]; [by apply elem_of_nil in Hin|].
  simpl. destruct (has_space z) eqn:Hz.
  - unfold get_position. rand_unfold. by simpl.
  - apply elem_of_cons in Hin as [-> | Hin]; [congruence | by apply IH].
Qed.

(** C4. The quarantine assignment of [Agent.update] does not look at the
    state again: an Infected agent that succeeds its recovery trial while
    quarantine is enabled and some zone has space ends the same update
    Recovered and with its quarantine flag set. *)
Theorem recovered_agent_is_quarantined `{MathLib}
    (self : Agent) (agents : list Agent) (zones : list QuarantineZone) (p : Q) (g : Rng) :
  state self = INFECTED →
  RECOVERY_TIME ≤ infection_time self + 1 →
  Qltb (rng_draws g (rng_pos g)) p = true →
  (∃ zone, zone ∈ zones ∧ has_space zone = true) →
  let r := fst (update self agents zones true p g) in
  fst r ≠ Returned false ∧ state (snd r) = RECOVERED ∧ in_quarantine (snd r) = true.
Proof.
  intros Hi Ht Hdraw Hzone. unfold update.
  destruct (decide (state self = INFECTED)); [|done].
  simpl. destruct (Z.leb_spec RECOVERY_TIME (infection_time self + 1)); [|lia].
  rand_unfold. rewrite Hdraw.
  unfold update_quarantine. simpl.
  match goal with |- context [quarantine_scan ?a zones ?gg] =>
    destruct (quarantine_scan_joins a zones gg Hzone) as [Hq Hs];
    destruct (quarantine_scan a zones gg) as [a1 g1]
  end.
  simpl in Hq, Hs.
  destruct (update_move_spec a1 agents g1)
    as (res & a2 & g2 & -> & (_ & Hs2 & _ & _ & Hq2 & _) & Hres).
  simpl. by rewrite Hs2, Hq2, Hs, Hq.
Qed.

Lemma recovered_agent_is_quarantined_witness :
  let r := fst (@update approx_math erin [erin]
                  [QuarantineZone_init 950 50 200 200 50] true RECOVERY_PROB halves) in
  fst r ≠ Returned false ∧ state (snd r) = RECOVERED ∧ in_quarantine (snd r) = true.
Proof.
  apply (@recovered_agent_is_quarantined approx_math).
  - reflexivity.
  - vm_compute. discriminate.
  - reflexivity.
  - eexists. split; [by left | reflexivity].
Defined.

(** ** Scenarios *)

Lemma load_scenario_resets_first `{MathLib} sim scenario_id g :
  agents (snd (fst (load_scenario sim scenario_id g))) =
    agents (snd (fst (reset_simulation sim g))).
Proof.
  unfold load_scenario. rand_unfold.
  destruct (reset_simulation sim g) as [[res s] g'].
  destruct res as [[]|e]; [|reflexivity].
  destruct (scenario_id =? 1); [reflexivity|].
  destruct (scenario_id =? 2); reflexivity.
Qed.

(** C5. [load_scenario] resets before it assigns the scenario's values:
    the population it builds is the one [reset_simulation] builds under
    the multipliers in force before the call.  Loading scenario 1
    (vaccination multiplier 0.0) from the default settings (multiplier
    1.0) leaves 60 Immune agents, where a reset under the scenario's own
    values leaves none. *)
Theorem scenario_population_built_under_old_multipliers :
  (∀ (M : MathLib) sim scenario_id g,
     agents (snd (fst (load_scenario sim scenario_id g))) =
       agents (snd (fst (reset_simulation sim g)))) ∧
  let loaded := snd (fst (@load_scenario approx_math fresh_simulation 1 halves)) in
  let reset_under_scenario :=
    snd (fst (@reset_simulation approx_math
                (set_scenario fresh_simulation 2 (1 # 2) 0 false) halves)) in
  vaccination_rate_multiplier fresh_simulation = 1%Q ∧
  vaccination_rate_multiplier loaded = 0%Q ∧
  infection_prob_multiplier loaded = 2%Q ∧
  length (agents loaded) = 200%nat ∧
  count_state IMMUNE (agents loaded) = 60 ∧
  length (agents reset_under_scenario) = 200%nat ∧
  count_state IMMUNE (agents reset_under_scenario) = 0.
Proof.
  split.
  - intros M sim scenario_id g. apply load_scenario_resets_first.
  - vm_compute. repeat split; reflexivity.
Qed.

(** ** Contact durations *)

(** C3, as stated, fails.  [alice] and [bob] start with empty contact maps
    and walk apart; the first tick leaves them 14 apart and records the
    contact; in the second [bob] recovers and the pair is 18 apart, and
    the contact pass of that tick leaves the entry of [alice] for [bob]
    in place. *)
Lemma stale_entry_after_partner_recovers :
  let l := agents (fst (@run_ticks approx_math 2 two_agents halves)) in
  (∀ a, a ∈ agents two_agents → contact_time a = ∅) ∧
  state <$> l = [SUSCEPTIBLE; RECOVERED] ∧
  ¬ @contact_entries_only_within_radius approx_math l.
Proof.
  intros l. split; [|split].
  - intros a Ha. unfold two_agents in Ha. simpl in Ha.
    apply elem_of_cons in Ha as [-> | Ha]; [reflexivity|].
    apply elem_of_cons in Ha as [-> | Ha]; [reflexivity|].
    by apply elem_of_nil in Ha.
  - vm_compute. reflexivity.
  - intros Hc.
    assert (Hl : ∃ a b, l = [a; b] ∧ aid a = 0%nat ∧ aid b = 1%nat ∧
              Qltb (@distance_to approx_math (position a) (position b))
                   INFECTION_RADIUS = false ∧
              contact_time a !! 1%nat = Some 1).
    { vm_compute. eexists _, _. repeat split. }
    destruct Hl as (a & b & Hl & Ha & Hb & Hfar & Hentry).
    specialize (Hc a b). rewrite Hl, Ha, Hb in Hc.
    rewrite Hc in Hentry; [discriminate| | |lia|exact Hfar].
    + by left.
    + right. by left.
Qed.

Lemma track_contact_other c k k' : k ≠ k' → track_contact c k !! k' = c !! k'.
Proof.
  intros Hne. unfold track_contact.
  destruct (c !! k); rewrite !lookup_insert_ne by done; reflexivity.
Qed.

Section ContactFacts.
Context `{MathLib}.

(** The loop only touches the entries of the agents it scans. *)
Lemma check_infection_loop_other k agents : ∀ self g,
  k ∉ aid <$> agents →
  contact_time (fst (check_infection_loop self agents g)) !! k = contact_time self !! k.
Proof.
  induction agents as [|agent rest IH]; intros self g Hk; simpl; [done|].
  rewrite fmap_cons in Hk. apply not_elem_of_cons in Hk as [Hne Hk].
  destruct (_ && _); [|by apply IH].
  destruct (Qltb _ INFECTION_RADIUS).
  - rand_unfold. destruct (Qltb _ _); simpl.
    + by apply track_contact_other.
    + rewrite IH by done. simpl. by apply track_contact_other.
  - destruct (contact_time self !! aid agent) eqn:E; rewrite IH by done; simpl.
    + by apply lookup_delete_ne.
    + done.
Qed.

Lemma check_infection_loop_drops agents : ∀ self g b,
  state (fst (check_infection_loop self agents g)) = SUSCEPTIBLE →
  state self = SUSCEPTIBLE →
  NoDup (aid <$> agents) →
  b ∈ agents → state b = INFECTED → aid b ≠ aid self →
  Qltb (distance_to (position self) (position b)) INFECTION_RADIUS = false →
  contact_time (fst (check_infection_loop self agents g)) !! aid b = None.
Proof.
  induction agents as [|agent rest IH]; intros self g b Hafter Hs Hnd Hin Hb Hne Hfar.
  { by apply elem_of_nil in Hin. }
  rewrite fmap_cons in Hnd. apply NoDup_cons in Hnd as [Hfresh Hnd].
  simpl in *.
  apply elem_of_cons in Hin as [-> | Hin].
  - rewrite Hb, Hfar in *.
    rewrite bool_decide_eq_true_2 in * by done.
    rewrite bool_decide_eq_true_2 in * by done.
    simpl in *.
    rewrite check_infection_loop_other by done.
    destruct (contact_time self !! aid agent) eqn:E; simpl; [|done].
    apply lookup_delete_eq.
  - destruct (_ && _); [|by apply IH].
    destruct (Qltb _ INFECTION_RADIUS).
    + rand_unfold. destruct (Qltb _ _); simpl in *; [discriminate|].
      by apply IH.
    + destruct (contact_time self !! aid agent); by apply IH.
Qed.
End ContactFacts.

(** C3, amended.  After the contact check of an agent that is Susceptible
    once the check is over, the agent holds no contact-duration entry for
    any other agent of the scanned population that is Infected and at a
    distance of at least the infection radius. *)
Theorem separated_infected_partner_has_no_entry `{MathLib}
    (self b : Agent) (agents : list Agent) (g : Rng) :
  state (fst (check_infection self agents g)) = SUSCEPTIBLE →
  NoDup (aid <$> agents) →
  b ∈ agents → state b = INFECTED → aid b ≠ aid self →
  Qltb (distance_to (position self) (position b)) INFECTION_RADIUS = false →
  contact_time (fst (check_infection self agents g)) !! aid b = None.
Proof.
  unfold check_infection.
  destruct (decide (state self = SUSCEPTIBLE)) as [Hs|Hn].
  - intros. by apply check_infection_loop_drops.
  - simpl. intros Hs. by destruct Hn.
Qed.

Lemma separated_infected_partner_has_no_entry_witness :
  contact_time frank !! aid grace = Some 3 ∧
  contact_time (fst (@check_infection approx_math frank [frank; grace] halves)) !! aid grace
    = None.
Proof.
  split; [reflexivity|].
  apply (@separated_infected_partner_has_no_entry approx_math).
  - vm_compute. reflexivity.
  - apply (bool_decide_unpack _). vm_compute. reflexivity.
  - right. left.
  - reflexivity.
  - simpl. lia.
  - vm_compute. reflexivity.
Defined.

(** * Further properties of the engine *)

(** ** Comparisons on rationals *)

Lemma Qltb_lt (x y : Q) : Qltb x y = true ↔ (x < y)%Q.
Proof.
  unfold Qltb. rewrite negb_true_iff.
  split.
  - intros Hb. apply Qnot_le_lt. intros Hle.
    apply Qle_bool_iff in Hle. congruence.
  - intros Hlt. destruct (Qle_bool y x) eqn:E; [|reflexivity].
    apply Qle_bool_iff in E. exfalso. exact (Qlt_not_le _ _ Hlt E).
Qed.

Lemma Qltb_ge (x y : Q) : Qltb x y = false ↔ (y <= x)%Q.
Proof.
  unfold Qltb. rewrite negb_false_iff. apply Qle_bool_iff.
Qed.

Lemma Qmin_le_r (x y : Q) : (Qmin x y <= y)%Q.
Proof.
  unfold Qmin. destruct (Qltb y x) eqn:E; [apply Qle_refl|].
  by apply Qltb_ge in E.
Qed.

Lemma Qmin_le_l (x y : Q) : (Qmin x y <= x)%Q.
Proof.
  unfold Qmin. destruct (Qltb y x) eqn:E; [|apply Qle_refl].
  apply Qltb_lt in E. by apply Qlt_le_weak.
Qed.

Lemma Qmin_glb (x y z : Q) : (z <= x)%Q → (z <= y)%Q → (z <= Qmin x y)%Q.
Proof. unfold Qmin. by destruct (Qltb y x). Qed.

Lemma Qmax_ge_l (x y : Q) : (x <= Qmax x y)%Q.
Proof.
  unfold Qmax. destruct (Qltb x y) eqn:E; [|apply Qle_refl].
  apply Qltb_lt in E. by apply Qlt_le_weak.
Qed.

Lemma Qmax_lub (x y z : Q) : (x <= z)%Q → (y <= z)%Q → (Qmax x y <= z)%Q.
Proof. unfold Qmax. by destruct (Qltb x y). Qed.

(** [random.uniform(a, b)] stays between its bounds on a draw of the unit
    interval. *)
Lemma uniform_between (a b : Q) (g : Rng) :
  (a <= b)%Q → (0 <= rng_draws g (rng_pos g))%Q → (rng_draws g (rng_pos g) <= 1)%Q →
  (a <= fst (uniform a b g))%Q ∧ (fst (uniform a b g) <= b)%Q.
Proof.
  intros Hab H0 H1. rand_unfold. simpl.
  set (r := rng_draws g (rng_pos g)) in *.
  assert (Hd : (0 <= b - a)%Q) by (unfold Qminus; rewrite <- Qle_minus_iff; exact Hab).
  split.
  - rewrite <- (Qplus_0_r a) at 1. apply Qplus_le_compat; [apply Qle_refl|].
    by apply Qmult_le_0_compat.
  - assert (Hm : ((b - a) * r <= (b - a) * 1)%Q).
    { rewrite !(Qmult_comm (b - a)). by apply Qmult_le_compat_r. }
    rewrite Qmult_1_r in Hm.
    assert (Hs : (a + (b - a) * r <= a + (b - a))%Q)
      by (apply Qplus_le_compat; [apply Qle_refl | exact Hm]).
    eapply Qle_trans; [exact Hs|].
    assert (E : (a + (b - a) == b)%Q) by ring.
    rewrite E. apply Qle_refl.
Qed.

(** ** The bounded histories of [Statistics] *)

Lemma deque_append_length {A} (maxlen : nat) (d : list A) (x : A) :
  length (deque_append maxlen d x) = Nat.min (S (length d)) maxlen.
Proof.
  unfold deque_append. rewrite length_drop, !length_app. cbn [length]. lia.
Qed.

Lemma deque_append_last {A} (maxlen : nat) (d : list A) (x : A) :
  (0 < maxlen)%nat → last (deque_append maxlen d x) = Some x.
Proof.
  intros Hm. unfold deque_append.
  rewrite last_lookup, length_drop, lookup_drop, !length_app. cbn [length].
  replace (_ + _)%nat with (length d) by lia.
  rewrite lookup_app_r by lia. by rewrite Nat.sub_diag.
Qed.

(** X1. A sample appends one value to each of the six histories and drops
    the oldest beyond [max_history]: every history has length
    [min(len + 1, max_history)] afterwards, so a history within the bound
    stays within it whatever the length of the run, and the bound itself
    never changes. *)
Theorem histories_stay_bounded (self : Statistics) (agents : list Agent) :
  let self' := snd (Statistics_update self agents) in
  let grown {A} (h h' : list A) :=
    length h' = Nat.min (S (length h)) (max_history self) in
  max_history self' = max_history self ∧
  grown (susceptible_history self) (susceptible_history self') ∧
  grown (infected_history self) (infected_history self') ∧
  grown (recovered_history self) (recovered_history self') ∧
  grown (immune_history self) (immune_history self') ∧
  grown (infection_rate_history self) (infection_rate_history self') ∧
  grown (recovery_rate_history self) (recovery_rate_history self').
Proof.
  rewrite Statistics_update_returns. simpl.
  repeat split; apply deque_append_length.
Qed.

Lemma count_state_cons st a l :
  count_state st (a :: l) = (if decide (state a = st) then 1 else 0) + count_state st l.
Proof.
  unfold count_state. rewrite filter_cons.
  destruct (decide (state a = st)); simpl length; lia.
Qed.

Lemma count_state_nonneg st l : 0 ≤ count_state st l.
Proof. unfold count_state. lia. Qed.

(** X2. The four counts of a sample partition the population: they add up
    to the number of agents, and with room in the histories they are the
    values the sample records last. *)
Theorem sample_counts_partition (self : Statistics) (agents : list Agent) :
  count_state SUSCEPTIBLE agents + count_state INFECTED agents
    + count_state RECOVERED agents + count_state IMMUNE agents
    = Z.of_nat (length agents) ∧
  ((0 < max_history self)%nat →
   let self' := snd (Statistics_update self agents) in
   last (susceptible_history self') = Some (count_state SUSCEPTIBLE agents) ∧
   last (infected_history self') = Some (count_state INFECTED agents) ∧
   last (recovered_history self') = Some (count_state RECOVERED agents) ∧
   last (immune_history self') = Some (count_state IMMUNE agents)).
Proof.
  split.
  - induction agents as [|a l IH]; [reflexivity|].
    rewrite !count_state_cons. simpl length.
    destruct (state a); simpl; lia.
  - intros Hm. rewrite Statistics_update_returns. simpl.
    repeat split; by apply deque_append_last.
Qed.

(** ** [Agent.update]: movement, progression and quarantine *)

Lemma bounce_and_clamp_in_bounds self : in_bounds (position (bounce_and_clamp self)).
Proof.
  unfold bounce_and_clamp, in_bounds. simpl.
  split; [apply Qmax_ge_l|]. split; [apply Qmax_lub; [done | apply Qmin_le_r]|].
  split; [apply Qmax_ge_l|]. apply Qmax_lub; [done | apply Qmin_le_r].
Qed.

Section UpdateFacts.
Context `{MathLib}.

Lemma update_finish_in_bounds self g :
  in_bounds (position (snd (fst (update_finish self g)))).
Proof.
  unfold update_finish, random_heading. rand_unfold.
  destruct (Qltb _ _); simpl; apply (bounce_and_clamp_in_bounds self).
Qed.

Lemma update_move_in_bounds self agents g :
  fst (fst (update_move self agents g)) = Returned true →
  in_bounds (position (snd (fst (update_move self agents g)))).
Proof.
  unfold update_move, random_heading, choice. rand_unfold.
  repeat split_if; simpl; intros Hr;
    first [apply update_finish_in_bounds | discriminate].
Qed.

Lemma quarantine_scan_full self zones g :
  Forall zone_full zones → quarantine_scan self zones g = (self, g).
Proof.
  induction 1 as [|zone rest Hz _ IH]; [reflexivity|].
  simpl. unfold has_space.
  destruct (Z.ltb_spec (current_count zone) (capacity zone)); [|exact IH].
  unfold zone_full in Hz. lia.
Qed.

Lemma quarantine_scan_first self full zone rest g :
  Forall zone_full full → has_space zone = true →
  quarantine_scan self (full ++ zone :: rest) g =
    (set_quarantine_position (set_in_quarantine self true)
       (Some (fst (get_position zone g))),
     snd (get_position zone g)).
Proof.
  intros Hfull Hsp. induction Hfull as [|z l Hz _ IH]; simpl.
  - rewrite Hsp. reflexivity.
  - unfold has_space at 1.
    destruct (Z.ltb_spec (current_count z) (capacity z)); [|exact IH].
    unfold zone_full in Hz. lia.
Qed.

(** The zones split at the first one with free capacity, if any. *)
Lemma zones_split (zones : list QuarantineZone) :
  Forall zone_full zones ∨
  ∃ full zone rest, zones = full ++ zone :: rest ∧ Forall zone_full full ∧
                    has_space zone = true.
Proof.
  induction zones as [|z l IH]; [by left|].
  destruct (has_space z) eqn:Hz.
  - right. exists [], z, l. by repeat split.
  - assert (zone_full z).
    { unfold has_space in Hz. apply Z.ltb_ge in Hz. exact Hz. }
    destruct IH as [IH | (full & zone & rest & -> & Hf & Hs)].
    + left. by constructor.
    + right. exists (z :: full), zone, rest. repeat split; [|done]. by constructor.
Qed.

(** What the quarantine step does to the agent: nothing, or the flag and
    a target in the first zone with free capacity. *)
Lemma update_quarantine_cases self zones enable g :
  ∃ a1 g1, update_quarantine self zones enable g = (a1, g1) ∧
    same_state self a1 ∧ position a1 = position self ∧ velocity a1 = velocity self ∧
    ((a1 = self ∧ g1 = g ∧
      (enable = false ∨ in_quarantine self = true ∨ Forall zone_full zones)) ∨
     (enable = true ∧ in_quarantine self = false ∧ in_quarantine a1 = true ∧
      ∃ full zone rest, zones = full ++ zone :: rest ∧ Forall zone_full full ∧
        has_space zone = true ∧
        quarantine_position a1 = Some (fst (get_position zone g)) ∧
        g1 = snd (get_position zone g))).
Proof.
  unfold update_quarantine.
  destruct enable; simpl;
    [|eexists _, _; split; [reflexivity|]; repeat split; left; auto].
  destruct (in_quarantine self) eqn:Hq; simpl;
    [eexists _, _; split; [reflexivity|]; repeat split; left; auto|].
  destruct (zones_split zones) as [Hfull | (full & zone & rest & -> & Hf & Hs)].
  - rewrite quarantine_scan_full by done.
    eexists _, _; split; [reflexivity|]; repeat split; left; auto.
  - rewrite quarantine_scan_first by done.
    eexists _, _; split; [reflexivity|]. repeat split.
    right. repeat split. by exists full, zone, rest.
Qed.

(** [Agent.update], branch by branch. *)
Lemma update_unfold self agents zones enable p g :
  update self agents zones enable p g =
    if decide (state self = INFECTED) then
      let s1 := set_infection_time self (infection_time self + 1) in
      if RECOVERY_TIME <=? infection_time self + 1 then
        if Qltb (rng_draws g (rng_pos g)) p then
          let '(a1, g1) :=
            update_quarantine (set_in_quarantine (set_state s1 RECOVERED) false)
                              zones enable (next_draw g) in
          update_move a1 agents g1
        else (Returned false, s1, next_draw g)
      else
        let '(a1, g1) := update_quarantine s1 zones enable g in
        update_move a1 agents g1
    else update_move self agents g.
Proof.
  unfold update. rand_unfold. unfold next_draw.
  destruct (decide (state self = INFECTED)); [|reflexivity].
  simpl. destruct (RECOVERY_TIME <=? _); [|reflexivity].
  destruct (Qltb _ p); reflexivity.
Qed.
End UpdateFacts.

Section UpdateCases.
Context `{MathLib}.

Lemma quarantine_and_move s zones enable agents g :
  ∃ res a' g',
    (let '(a1, g1) := update_quarantine s zones enable g in update_move a1 agents g1)
      = (res, a', g') ∧
    same_state s a' ∧ res ≠ Returned false ∧
    (res = Returned true → in_bounds (position a')) ∧
    quarantine_step s a' zones enable g.
Proof.
  destruct (update_quarantine_cases s zones enable g)
    as (a1 & g1 & -> & Hs1 & _ & _ & Hq).
  pose proof (update_move_in_bounds a1 agents g1) as Hb.
  destruct (update_move_spec a1 agents g1)
    as (res & a' & g' & Hm & Hs2 & Hres).
  rewrite Hm in Hb |- *. simpl in Hb.
  exists res, a', g'. split; [reflexivity|].
  split; [eapply same_state_trans; [exact Hs1 | by apply same_health_state]|].
  split; [done|]. split; [done|].
  destruct Hs2 as (_ & _ & _ & _ & Hq2 & Hp2).
  destruct Hq as [(-> & _ & Hwhy) | (He & Hq0 & Hq1 & full & zone & rest & Hz & Hf & Hsp & Hqp & _)].
  - left. by repeat split.
  - right. repeat split; try done; [congruence|].
    exists full, zone, rest. repeat split; try done. congruence.
Qed.

(** The four ways through [Agent.update]. *)
Lemma update_spec self agents zones enable p g :
  ∃ res a' g', update self agents zones enable p g = (res, a', g') ∧
    aid a' = aid self ∧ contact_time a' = contact_time self ∧
    (res = Returned true → in_bounds (position a')) ∧
    ((state self ≠ INFECTED ∧ same_health self a' ∧ res ≠ Returned false) ∨
     (state self = INFECTED ∧ infection_time self + 1 < RECOVERY_TIME ∧
      state a' = INFECTED ∧ infection_time a' = infection_time self + 1 ∧
      res ≠ Returned false ∧ quarantine_step self a' zones enable g) ∨
     (state self = INFECTED ∧ RECOVERY_TIME ≤ infection_time self + 1 ∧
      Qltb (rng_draws g (rng_pos g)) p = true ∧
      state a' = RECOVERED ∧ infection_time a' = infection_time self + 1 ∧
      res ≠ Returned false ∧
      quarantine_step (set_in_quarantine self false) a' zones enable (next_draw g)) ∨
     (state self = INFECTED ∧ RECOVERY_TIME ≤ infection_time self + 1 ∧
      Qltb (rng_draws g (rng_pos g)) p = false ∧
      res = Returned false ∧
      a' = set_infection_time self (infection_time self + 1) ∧ g' = next_draw g)).
Proof.
  rewrite update_unfold.
  destruct (decide (state self = INFECTED)) as [Hi|Hn].
  - cbv zeta.
    destruct (Z.leb_spec RECOVERY_TIME (infection_time self + 1)) as [Ht|Ht].
    + destruct (Qltb _ p) eqn:Hd.
      * match goal with |- context [update_quarantine ?s zones enable ?gg] =>
          destruct (quarantine_and_move s zones enable agents gg)
            as (res & a' & g' & -> & (Ha & Hs & Hit & Hc) & Hres & Hb & Hq)
        end.
        exists res, a', g'. simpl in *.
        split; [reflexivity|]. split; [exact Ha|]. split; [exact Hc|]. split; [exact Hb|].
        right. right. left. by repeat split.
      * eexists _, _, _. split; [reflexivity|]. simpl.
        split; [reflexivity|]. split; [reflexivity|]. split; [discriminate|].
        right. right. right. by repeat split.
    + match goal with |- context [update_quarantine ?s zones enable ?gg] =>
        destruct (quarantine_and_move s zones enable agents gg)
          as (res & a' & g' & -> & (Ha & Hs & Hit & Hc) & Hres & Hb & Hq)
      end.
      exists res, a', g'. simpl in *.
      split; [reflexivity|]. split; [exact Ha|]. split; [exact Hc|]. split; [exact Hb|].
      right. left. repeat split; try done. congruence.
  - pose proof (update_move_in_bounds self agents g) as Hb.
    destruct (update_move_spec self agents g) as (res & a' & g' & Hm & Hs & Hres).
    rewrite Hm in Hb |- *. simpl in Hb.
    exists res, a', g'. split; [reflexivity|].
    pose proof Hs as (Ha & _ & _ & Hc & _).
    split; [exact Ha|]. split; [exact Hc|]. split; [exact Hb|].
    left. split; [done|]. split; [exact Hs | done].
Qed.
End UpdateCases.

(** X3. An agent that survives its update ends it inside the canvas:
    0 ≤ x ≤ WIDTH and 0 ≤ y ≤ HEIGHT − GRAPH_HEIGHT, wherever it started
    and whatever its velocity. *)
Theorem survivor_is_within_the_canvas `{MathLib}
    (self : Agent) (agents : list Agent) (zones : list QuarantineZone)
    (enable : bool) (p : Q) (g : Rng) :
  fst (fst (update self agents zones enable p g)) = Returned true →
  in_bounds (position (snd (fst (update self agents zones enable p g)))).
Proof.
  destruct (update_spec self agents zones enable p g)
    as (res & a' & g' & -> & _ & _ & Hb & _).
  exact Hb.
Qed.

Lemma survivor_is_within_the_canvas_witness :
  position walker = vec 1199 100 ∧
  in_bounds (position (snd (fst (@update approx_math walker [walker] [] true
                                   RECOVERY_PROB halves)))).
Proof.
  split; [reflexivity|].
  apply (@survivor_is_within_the_canvas approx_math). vm_compute. reflexivity.
Defined.

(** X4. [update] reports death exactly when the agent is Infected, its
    incremented infection time has reached RECOVERY_TIME and the draw is
    not below the recovery probability; the dying agent is returned with
    only its infection time incremented (it is neither quarantined nor
    moved) and one draw is consumed. *)
Theorem death_exactly_on_failed_trial `{MathLib}
    (self : Agent) (agents : list Agent) (zones : list QuarantineZone)
    (enable : bool) (p : Q) (g : Rng) :
  let failed :=
    state self = INFECTED ∧ RECOVERY_TIME ≤ infection_time self + 1 ∧
    Qltb (rng_draws g (rng_pos g)) p = false in
  (fst (fst (update self agents zones enable p g)) = Returned false ↔ failed) ∧
  (failed →
   update self agents zones enable p g =
     (Returned false, set_infection_time self (infection_time self + 1), next_draw g)).
Proof.
  destruct (update_spec self agents zones enable p g)
    as (res & a' & g' & -> & _ & _ & _ & Hcase).
  simpl.
  destruct Hcase as [(Hn & _ & Hres) | [(Hi & Ht & _ & _ & Hres & _)
    | [(Hi & Ht & Hd & _ & _ & Hres & _) | (Hi & Ht & Hd & -> & -> & ->)]]].
  - split; [split; [done | by intros [? _]] | by intros [? _]].
  - split; [split; [done | intros (_ & ? & _); lia] | intros (_ & ? & _); lia].
  - split; [split; [done | intros (_ & _ & ?); congruence]
           | intros (_ & _ & ?); congruence].
  - split; [split; done | done].
Qed.

Lemma death_exactly_on_failed_trial_witness :
  @update approx_math due [due] [default_zone] true RECOVERY_PROB (constant_draws (8 # 10))
    = (Returned false, set_infection_time due 300, next_draw (constant_draws (8 # 10))).
Proof.
  apply (@death_exactly_on_failed_trial approx_math).
  split; [reflexivity|]. split; [vm_compute; discriminate | reflexivity].
Defined.

(** X5. Before the threshold there is no trial: an Infected agent whose
    incremented infection time is below RECOVERY_TIME stays Infected, is
    one tick older and is not reported dead. *)
Theorem no_trial_before_recovery_time `{MathLib}
    (self : Agent) (agents : list Agent) (zones : list QuarantineZone)
    (enable : bool) (p : Q) (g : Rng) :
  state self = INFECTED → infection_time self + 1 < RECOVERY_TIME →
  let r := fst (update self agents zones enable p g) in
  fst r ≠ Returned false ∧ state (snd r) = INFECTED ∧
  infection_time (snd r) = infection_time self + 1.
Proof.
  intros Hi Ht.
  destruct (update_spec self agents zones enable p g)
    as (res & a' & g' & -> & _ & _ & _ & Hcase).
  simpl.
  destruct Hcase as [(Hn & _) | [(_ & _ & Hs & Hit & Hres & _)
    | [(_ & Ht' & _) | (_ & Ht' & _)]]]; try done; lia.
Qed.

Lemma no_trial_before_recovery_time_witness :
  let r := fst (@update approx_math early [early] [default_zone] true RECOVERY_PROB
                  (constant_draws 1)) in
  fst r ≠ Returned false ∧ state (snd r) = INFECTED ∧ infection_time (snd r) = 11.
Proof.
  apply (@no_trial_before_recovery_time approx_math); reflexivity.
Defined.

(** X6. For an agent that is not Infected, [update] is movement only: it
    never reports death and leaves the identity, the state, the infection
    time, the contact durations, the quarantine flag and the quarantine
    target as they were. *)
Theorem update_of_healthy_agent_only_moves `{MathLib}
    (self : Agent) (agents : list Agent) (zones : list QuarantineZone)
    (enable : bool) (p : Q) (g : Rng) :
  state self ≠ INFECTED →
  let r := fst (update self agents zones enable p g) in
  fst r ≠ Returned false ∧ same_health self (snd r).
Proof.
  intros Hn.
  destruct (update_spec self agents zones enable p g)
    as (res & a' & g' & -> & _ & _ & _ & Hcase).
  simpl.
  destruct Hcase as [(_ & Hs & Hres) | [(Hi & _) | [(Hi & _) | (Hi & _)]]]; done.
Qed.

Lemma update_of_healthy_agent_only_moves_witness :
  let r := fst (@update approx_math walker [walker] [default_zone] true RECOVERY_PROB
                  halves) in
  fst r ≠ Returned false ∧ same_health walker (snd r).
Proof.
  apply (@update_of_healthy_agent_only_moves approx_math). discriminate.
Defined.

(** X7. With quarantine disabled, or with every zone at capacity (a zone of
    capacity 0 is so from the start), no update sets the quarantine flag:
    an agent quarantined after the update was quarantined before it. *)
Theorem no_quarantine_without_room `{MathLib}
    (self : Agent) (agents : list Agent) (zones : list QuarantineZone)
    (enable : bool) (p : Q) (g : Rng) :
  enable = false ∨ Forall zone_full zones →
  in_quarantine (snd (fst (update self agents zones enable p g))) = true →
  in_quarantine self = true.
Proof.
  intros Hno.
  destruct (update_spec self agents zones enable p g)
    as (res & a' & g' & -> & _ & _ & _ & Hcase).
  simpl. intros Hq.
  assert (Hstep : ∀ s gg, quarantine_step s a' zones enable gg →
                          in_quarantine s = true).
  { intros s gg [(Hsame & _) | (He & _ & _ & full & zone & rest & -> & _ & Hsp & _)].
    - congruence.
    - destruct Hno as [? | Hfull]; [congruence|].
      apply Forall_app in Hfull as [_ Hfull].
      apply Forall_cons in Hfull as [Hz _].
      unfold has_space in Hsp. apply Z.ltb_lt in Hsp. unfold zone_full in Hz. lia. }
  destruct Hcase as [(_ & Hs & _) | [(_ & _ & _ & _ & _ & Hstp)
    | [(_ & _ & _ & _ & _ & _ & Hstp) | (_ & _ & _ & _ & -> & _)]]].
  - destruct Hs as (_ & _ & _ & _ & Hsq & _). congruence.
  - by apply (Hstep self g).
  - by apply (Hstep _ _) in Hstp.
  - exact Hq.
Qed.

Lemma no_quarantine_without_room_witness :
  zone_full no_room ∧
  in_quarantine (snd (fst (@update approx_math early [early] [no_room] true
                             RECOVERY_PROB halves))) = false.
Proof.
  split; [vm_compute; discriminate|].
  destruct (in_quarantine _) eqn:E; [|reflexivity].
  apply (@no_quarantine_without_room approx_math) in E; [discriminate E|].
  right. repeat constructor. vm_compute. discriminate.
Defined.

(** X8. [get_position] returns a point of the zone's interior, ten units
    inside each edge, when the zone is at least 20 wide and 20 high and the
    two draws it consumes are in the unit interval. *)
Theorem quarantine_target_inside_margin (zone : QuarantineZone) (g : Rng) :
  20 ≤ rect_width (rect zone) → 20 ≤ rect_height (rect zone) →
  unit_draws g 2 →
  inside_margin zone (fst (get_position zone g)) ∧
  rng_pos (snd (get_position zone g)) = (rng_pos g + 2)%nat.
Proof.
  intros Hw Hh Hu.
  destruct (Hu 0%nat) as [H00 H01]; [lia|].
  destruct (Hu 1%nat) as [H10 H11]; [lia|].
  rewrite Nat.add_0_r in H00, H01.
  pose proof (uniform_between (inject_Z (rect_x (rect zone) + 10))
                (inject_Z (rect_x (rect zone) + rect_width (rect zone) - 10)) g) as Bx.
  pose proof (uniform_between (inject_Z (rect_y (rect zone) + 10))
                (inject_Z (rect_y (rect zone) + rect_height (rect zone) - 10))
                (next_draw g)) as By.
  simpl in By. rewrite Nat.add_1_r in H10, H11.
  destruct Bx as [Bx1 Bx2]; [rewrite <- Zle_Qle; lia | done | done |].
  destruct By as [By1 By2]; [rewrite <- Zle_Qle; lia | done | done |].
  split; [|simpl; lia].
  unfold inside_margin. by repeat split.
Qed.

Lemma quarantine_target_inside_margin_witness :
  inside_margin default_zone (fst (get_position default_zone halves)) ∧
  rng_pos (snd (get_position default_zone halves)) = (rng_pos halves + 2)%nat.
Proof.
  apply quarantine_target_inside_margin.
  - vm_compute. discriminate.
  - vm_compute. discriminate.
  - intros i _.
    assert (E : rng_draws halves (rng_pos halves + i) = (1 # 2)%Q)
      by (simpl; destruct i; reflexivity).
    rewrite E. split; vm_compute; discriminate.
Defined.

(** X9. An Infected agent that is not yet quarantined and not yet due for
    its trial, updated with quarantine enabled, joins the first zone of the
    list that has free capacity: its flag is set and its target is the
    point [get_position] draws for that zone; zones listed before it are
    full and are passed over. *)
Theorem joins_first_zone_with_space `{MathLib}
    (self : Agent) (agents : list Agent) (full rest : list QuarantineZone)
    (zone : QuarantineZone) (p : Q) (g : Rng) :
  state self = INFECTED → infection_time self + 1 < RECOVERY_TIME →
  in_quarantine self = false →
  Forall zone_full full → has_space zone = true →
  let a' := snd (fst (update self agents (full ++ zone :: rest) true p g)) in
  in_quarantine a' = true ∧
  quarantine_position a' = Some (fst (get_position zone g)).
Proof.
  intros Hi Ht Hq Hfull Hsp. rewrite update_unfold.
  destruct (decide (state self = INFECTED)); [|done].
  cbv zeta. destruct (Z.leb_spec RECOVERY_TIME (infection_time self + 1)); [lia|].
  unfold update_quarantine. simpl. rewrite Hq. simpl.
  rewrite quarantine_scan_first by done.
  match goal with |- context [update_move ?a agents ?gg] =>
    destruct (update_move_spec a agents gg)
      as (res & a' & g' & -> & (_ & _ & _ & _ & Hq' & Hp') & _)
  end.
  simpl in *. by rewrite Hq', Hp'.
Qed.

Lemma joins_first_zone_with_space_witness :
  let a' := snd (fst (@update approx_math early [early] ([no_room] ++ default_zone :: [])
                        true RECOVERY_PROB halves)) in
  in_quarantine a' = true ∧
  quarantine_position a' = Some (fst (get_position default_zone halves)).
Proof.
  apply (@joins_first_zone_with_space approx_math).
  - reflexivity.
  - reflexivity.
  - reflexivity.
  - repeat constructor. vm_compute. discriminate.
  - reflexivity.
Defined.

(** X10. As long as it does not change state, a quarantined agent keeps
    its quarantine flag and its target over an update: the scan is not run
    again for it. *)
Theorem quarantined_agent_keeps_target `{MathLib}
    (self : Agent) (agents : list Agent) (zones : list QuarantineZone)
    (enable : bool) (p : Q) (g : Rng) :
  in_quarantine self = true →
  let a' := snd (fst (update self agents zones enable p g)) in
  state a' = state self →
  in_quarantine a' = true ∧ quarantine_position a' = quarantine_position self.
Proof.
  intros Hq.
  destruct (update_spec self agents zones enable p g)
    as (res & a' & g' & -> & _ & _ & _ & Hcase).
  simpl. intros Hst.
  destruct Hcase as [(_ & Hs & _) | [(_ & _ & _ & _ & _ & Hstp)
    | [(Hi & _ & _ & Hr & _) | (_ & _ & _ & _ & -> & _)]]].
  - destruct Hs as (_ & _ & _ & _ & Hsq & Hsp). by rewrite Hsq, Hsp.
  - destruct Hstp as [(Hsq & Hsp & _) | (_ & Hf & _)]; [|congruence].
    by rewrite Hsq, Hsp.
  - congruence.
  - done.
Qed.

Lemma quarantined_agent_keeps_target_witness :
  let a' := snd (fst (@update approx_math confined [confined] [default_zone] true
                        RECOVERY_PROB halves)) in
  in_quarantine a' = true ∧ quarantine_position a' = Some (vec 1000 100).
Proof.
  apply (@quarantined_agent_keeps_target approx_math); reflexivity.
Defined.

(** ** [Agent.check_infection] and the contact pass *)

Lemma track_contact_same c k : track_contact c k !! k = Some (default 0 (c !! k) + 1).
Proof.
  unfold track_contact. destruct (c !! k) eqn:E.
  - by rewrite lookup_insert_eq, E.
  - by rewrite !lookup_insert_eq.
Qed.

Section CheckFacts.
Context `{MathLib}.

Lemma check_infection_loop_quiet agents : ∀ self g,
  out_of_reach self agents →
  snd (check_infection_loop self agents g) = g ∧
  state (fst (check_infection_loop self agents g)) = state self ∧
  contact_time (fst (check_infection_loop self agents g)) ⊆ contact_time self.
Proof.
  induction agents as [|agent rest IH]; intros self g Hout; simpl; [done|].
  assert (Hrest : ∀ s, aid s = aid self → position s = position self →
                       out_of_reach s rest).
  { intros s Ha Hp b Hb Hi Hne. rewrite Hp. apply Hout; [by right | done | congruence]. }
  destruct (bool_decide (state agent = INFECTED)) eqn:Ei; simpl; [|by apply IH, Hrest].
  destruct (bool_decide (aid agent ≠ aid self)) eqn:En; simpl; [|by apply IH, Hrest].
  apply bool_decide_eq_true in Ei, En.
  rewrite (Hout agent) by (done || by left).
  destruct (contact_time self !! aid agent) eqn:E; [|by apply IH, Hrest].
  match goal with |- context [check_infection_loop ?s rest g] =>
    destruct (IH s g) as (Hg & Hs & Hc); [by apply Hrest|] end.
  split; [done|]. split; [done|].
  etrans; [exact Hc|]. simpl. apply delete_subseteq.
Qed.

Lemma check_infection_loop_counts agents : ∀ self g b,
  state (fst (check_infection_loop self agents g)) = SUSCEPTIBLE →
  NoDup (aid <$> agents) →
  b ∈ agents → state b = INFECTED → aid b ≠ aid self →
  Qltb (distance_to (position self) (position b)) INFECTION_RADIUS = true →
  contact_time (fst (check_infection_loop self agents g)) !! aid b
    = Some (default 0 (contact_time self !! aid b) + 1).
Proof.
  induction agents as [|agent rest IH]; intros self g b Hafter Hnd Hin Hb Hne Hnear.
  { by apply elem_of_nil in Hin. }
  rewrite fmap_cons in Hnd. apply NoDup_cons in Hnd as [Hfresh Hnd].
  simpl in *.
  apply elem_of_cons in Hin as [-> | Hin].
  - rewrite Hb, Hnear in *.
    rewrite bool_decide_eq_true_2 in * by done.
    rewrite bool_decide_eq_true_2 in * by done.
    simpl in *. rand_unfold.
    destruct (Qltb _ _); simpl in *; [discriminate|].
    rewrite check_infection_loop_other by done. simpl.
    apply track_contact_same.
  - assert (Hk : aid b ≠ aid agent).
    { intros E. apply Hfresh. rewrite <- E. by apply list_elem_of_fmap_2. }
    destruct (_ && _); [|by apply IH].
    destruct (Qltb _ INFECTION_RADIUS).
    + rand_unfold. destruct (Qltb _ _); simpl in *; [discriminate|].
      rewrite IH by done. simpl. by rewrite track_contact_other.
    + destruct (contact_time self !! aid agent) eqn:E; rewrite IH by done; simpl;
        [by rewrite lookup_delete_ne | done].
Qed.

Lemma check_infection_loop_step agents : ∀ self g,
  let a' := fst (check_infection_loop self agents g) in
  aid a' = aid self ∧ position a' = position self ∧ velocity a' = velocity self ∧
  speed a' = speed self ∧
  in_quarantine a' = in_quarantine self ∧
  quarantine_position a' = quarantine_position self ∧
  ((state a' = state self ∧ infection_time a' = infection_time self) ∨
   (state a' = INFECTED ∧ infection_time a' = 0)).
Proof.
  induction agents as [|agent rest IH]; intros self g; simpl.
  - repeat split; by left.
  - destruct (_ && _); [|apply IH].
    destruct (Qltb _ INFECTION_RADIUS).
    + rand_unfold. destruct (Qltb _ _); simpl.
      * repeat split; by right.
      * match goal with |- context [check_infection_loop ?s rest ?gg] =>
          exact (IH s gg) end.
    + destruct (contact_time self !! aid agent);
        match goal with |- context [check_infection_loop ?s rest ?gg] =>
          exact (IH s gg) end.
Qed.

Lemma check_infection_step self agents g :
  contact_step self (fst (check_infection self agents g)).
Proof.
  unfold check_infection, contact_step.
  destruct (decide (state self = SUSCEPTIBLE)) as [Hs|Hn]; simpl.
  - destruct (check_infection_loop_step agents self g)
      as (Ha & Hp & Hv & Hsp & Hq & Hqp & Hst).
    repeat split; try done.
    destruct Hst as [? | [? ?]]; [by left | by right].
  - repeat split; by left.
Qed.

Lemma infection_pass_spec todo : ∀ done g,
  ∃ l', fst (infection_pass done todo g) = done ++ l' ∧ Forall2 contact_step todo l'.
Proof.
  induction todo as [|agent rest IH]; intros done g; simpl.
  - exists []. by rewrite app_nil_r.
  - rand_unfold.
    pose proof (check_infection_step agent (done ++ agent :: rest) g) as Hstep.
    destruct (check_infection agent (done ++ agent :: rest) g) as [a' g1].
    destruct (IH (done ++ [a']) g1) as (l' & -> & Hl).
    exists (a' :: l'). rewrite <- app_assoc. split; [done|]. by constructor.
Qed.
End CheckFacts.

(** X11. Without an Infected agent other than itself within the infection
    radius, a contact check consumes no draw, leaves the state as it is and
    adds no contact-duration entry: pairs that are not in range acquire no
    entry. *)
Theorem no_contact_no_draw `{MathLib} (self : Agent) (agents : list Agent) (g : Rng) :
  out_of_reach self agents →
  snd (check_infection self agents g) = g ∧
  state (fst (check_infection self agents g)) = state self ∧
  contact_time (fst (check_infection self agents g)) ⊆ contact_time self.
Proof.
  intros Hout. unfold check_infection.
  destruct (decide (state self = SUSCEPTIBLE)); [|done].
  by apply check_infection_loop_quiet.
Qed.

Lemma no_contact_no_draw_witness :
  snd (@check_infection approx_math frank [frank; grace] halves) = halves ∧
  state (fst (@check_infection approx_math frank [frank; grace] halves)) = state frank ∧
  contact_time (fst (@check_infection approx_math frank [frank; grace] halves))
    ⊆ contact_time frank.
Proof.
  apply (@no_contact_no_draw approx_math).
  intros b Hb Hi Hne.
  apply elem_of_cons in Hb as [-> | Hb]; [discriminate Hi|].
  apply elem_of_cons in Hb as [-> | Hb]; [vm_compute; reflexivity|].
  by apply elem_of_nil in Hb.
Defined.

(** X12. Contact durations count consecutive checks: after the check of an
    agent that is Susceptible once the check is over, the entry for every
    other Infected agent of the population within the infection radius is
    one more than before, and 1 when there was none (object identities
    being distinct). *)
Theorem contact_duration_counts_up `{MathLib}
    (self b : Agent) (agents : list Agent) (g : Rng) :
  state (fst (check_infection self agents g)) = SUSCEPTIBLE →
  NoDup (aid <$> agents) →
  b ∈ agents → state b = INFECTED → aid b ≠ aid self →
  Qltb (distance_to (position self) (position b)) INFECTION_RADIUS = true →
  contact_time (fst (check_infection self agents g)) !! aid b
    = Some (default 0 (contact_time self !! aid b) + 1).
Proof.
  unfold check_infection.
  destruct (decide (state self = SUSCEPTIBLE)) as [Hs|Hn].
  - intros. by apply check_infection_loop_counts.
  - simpl. intros Hs. by destruct Hn.
Qed.

Lemma contact_duration_counts_up_witness :
  contact_time exposed !! aid neighbour = Some 3 ∧
  contact_time (fst (@check_infection approx_math exposed [exposed; neighbour] halves))
    !! aid neighbour = Some 4.
Proof.
  split; [reflexivity|].
  apply (@contact_duration_counts_up approx_math exposed neighbour).
  - vm_compute. reflexivity.
  - apply (bool_decide_unpack _). vm_compute. reflexivity.
  - right. left.
  - reflexivity.
  - simpl. lia.
  - vm_compute. reflexivity.
Defined.

(** X13. The contact pass keeps the population in place: agent by agent,
    in order, identity, position, velocity and quarantine data are
    unchanged, an agent that was not Susceptible is returned as it was, and
    a Susceptible one either keeps its state and infection time or becomes
    Infected with infection time 0. *)
Theorem contact_pass_only_infects `{MathLib} (l : list Agent) (g : Rng) :
  Forall2 contact_step l (fst (infection_pass [] l g)).
Proof.
  destruct (infection_pass_spec l [] g) as (l' & -> & Hl). exact Hl.
Qed.

(** ** The tick as a whole *)

Lemma count_state_app st l1 l2 :
  count_state st (l1 ++ l2) = count_state st l1 + count_state st l2.
Proof.
  unfold count_state. rewrite filter_app, length_app. lia.
Qed.

Lemma contact_step_counts l l' :
  Forall2 contact_step l l' →
  aid <$> l' = aid <$> l ∧
  count_state IMMUNE l' = count_state IMMUNE l ∧
  count_state RECOVERED l' = count_state RECOVERED l ∧
  count_state SUSCEPTIBLE l' ≤ count_state SUSCEPTIBLE l ∧
  count_state INFECTED l ≤ count_state INFECTED l'.
Proof.
  induction 1 as [|a a' l l' Hstep _ IH]; [by repeat split|].
  destruct IH as (Hid & Him & Hre & Hsu & Hin).
  destruct Hstep as (Ha & _ & _ & _ & _ & _ & _ & Hst).
  rewrite !fmap_cons, !count_state_cons, Ha, Hid.
  split; [done|].
  destruct Hst as [[Hs _] | (Hs & Hs' & _)].
  - rewrite Hs. repeat split; lia.
  - rewrite Hs, Hs'. repeat split; repeat case_decide; try done; lia.
Qed.

Section Survivors.
Context `{MathLib}.

(** The part of [update_spec] the loop over the agents relies on. *)
Lemma update_summary self agents zones enable p g :
  ∃ res a' g', update self agents zones enable p g = (res, a', g') ∧
    aid a' = aid self ∧
    (res = Returned false → state self = INFECTED) ∧
    (state self ≠ INFECTED → state a' = state self) ∧
    (state self = INFECTED → state a' = INFECTED ∨ state a' = RECOVERED).
Proof.
  destruct (update_spec self agents zones enable p g)
    as (res & a' & g' & -> & Ha & _ & _ & Hcase).
  exists res, a', g'. split; [reflexivity|]. split; [exact Ha|].
  destruct Hcase as [(Hn & (_ & Hs & _) & Hres) | [(Hi & _ & Hs & _ & Hres & _)
    | [(Hi & _ & _ & Hs & _ & Hres & _) | (Hi & _ & _ & -> & -> & _)]]];
    repeat split; intros; try done; auto.
Qed.

(** The survivors of the loop over the agents: they come from [todo], in
    order and under their identities; on a normal end every agent that was
    not Infected is among them in its state, and the Infected ones are
    Infected, Recovered or gone. *)
Lemma update_agents_survivors zones enable p todo : ∀ st g,
  ∃ new,
    lp_surviving (snd (fst (fst (update_agents zones enable p st todo g))))
      = lp_surviving st ++ new ∧
    sublist (aid <$> new) (aid <$> todo) ∧
    (fst (fst (fst (update_agents zones enable p st todo g))) = Returned () →
     count_state IMMUNE new = count_state IMMUNE todo ∧
     count_state SUSCEPTIBLE new = count_state SUSCEPTIBLE todo ∧
     count_state RECOVERED todo ≤ count_state RECOVERED new ∧
     count_state INFECTED new ≤ count_state INFECTED todo).
Proof.
  induction todo as [|agent rest IH]; intros st g; simpl.
  - exists []. rewrite app_nil_r. repeat split; try done; lia.
  - rand_unfold.
    destruct (update_summary agent (lp_done st ++ agent :: rest) zones enable p g)
      as (res & a' & g1 & -> & Ha & Hdead & Hkeep & Hinf).
    destruct res as [[|]|e].
    + match goal with |- context [update_agents _ _ _ ?s rest g1] =>
        destruct (IH s g1) as (new & Hnew & Hsub & Hcount) end.
      simpl in Hnew. exists (a' :: new).
      split; [by rewrite Hnew, <- app_assoc|].
      split; [rewrite ?fmap_cons; simpl; rewrite Ha; by apply sublist_skip|].
      intros Hr. destruct (Hcount Hr) as (Him & Hsu & Hre & Hi).
      rewrite !count_state_cons.
      destruct (decide (state agent = INFECTED)) as [Hst|Hst].
      * rewrite Hst. destruct (Hinf Hst) as [-> | ->];
          repeat split; repeat case_decide; try done; lia.
      * rewrite (Hkeep Hst). repeat split; repeat case_decide; try done; lia.
    + match goal with |- context [update_agents _ _ _ ?s rest g1] =>
        destruct (IH s g1) as (new & Hnew & Hsub & Hcount) end.
      simpl in Hnew. exists new.
      split; [done|].
      split; [rewrite ?fmap_cons; by apply sublist_cons|].
      intros Hr. destruct (Hcount Hr) as (Him & Hsu & Hre & Hi).
      rewrite !count_state_cons, (Hdead eq_refl).
      repeat split; repeat case_decide; try done; lia.
    + exists []. simpl. rewrite app_nil_r.
      split; [done|]. split; [apply sublist_nil_l | discriminate].
Qed.

(** On a raise the agent list is the old one, updated in place. *)
Lemma update_agents_identities zones enable p todo : ∀ st g,
  let r := fst (update_agents zones enable p st todo g) in
  aid <$> (lp_done (snd (fst r)) ++ snd r) = aid <$> (lp_done st ++ todo).
Proof.
  induction todo as [|agent rest IH]; intros st g; simpl.
  - reflexivity.
  - rand_unfold.
    destruct (update_summary agent (lp_done st ++ agent :: rest) zones enable p g)
      as (res & a' & g1 & -> & Ha & _).
    destruct res as [[|]|e]; simpl.
    + match goal with |- context [update_agents _ _ _ ?s rest g1] =>
        rewrite (IH s g1) end.
      simpl. rewrite <- app_assoc, !fmap_app, !fmap_cons. simpl. by rewrite Ha.
    + match goal with |- context [update_agents _ _ _ ?s rest g1] =>
        rewrite (IH s g1) end.
      simpl. rewrite <- app_assoc, !fmap_app, !fmap_cons. simpl. by rewrite Ha.
    + rewrite <- app_assoc, !fmap_app, !fmap_cons. simpl. by rewrite Ha.
Qed.
End Survivors.

Section TickAnatomy.
Context `{MathLib}.

(** A running tick, taken apart: the agents that survive the loop
    ([surv]) and what the contact pass makes of them. *)
Lemma tick_anatomy sim g :
  paused sim = false →
  let r := fst (EpidemicSimulation_update sim g) in
  settings_kept sim (snd r) ∧ frame_count (snd r) = frame_count sim + 1 ∧
  match fst r with
  | Returned _ =>
      global_RECOVERY_PROB (snd r) = global_RECOVERY_PROB sim ∧
      ∃ surv,
        sublist (aid <$> surv) (aid <$> agents sim) ∧
        count_state IMMUNE surv = count_state IMMUNE (agents sim) ∧
        count_state SUSCEPTIBLE surv = count_state SUSCEPTIBLE (agents sim) ∧
        count_state RECOVERED (agents sim) ≤ count_state RECOVERED surv ∧
        Forall2 contact_step surv (agents (snd r))
  | Raised _ =>
      global_RECOVERY_PROB (snd r) = effective_recovery_prob sim ∧
      aid <$> agents (snd r) = aid <$> agents sim
  end.
Proof.
  intros Hp. unfold EpidemicSimulation_update. rewrite Hp. rand_unfold.
  match goal with |- context [update_agents ?z ?e ?p ?s ?t g] =>
    pose proof (update_agents_survivors z e p t s g) as (new & Hnew & Hsub & Hcount);
    pose proof (update_agents_identities z e p t s g) as Hids;
    destruct (update_agents z e p s t g) as [[[res lp] rest] g1]
  end.
  simpl in *.
  destruct res as [[]|e].
  - destruct (Hcount eq_refl) as (Him & Hsu & Hre & _).
    pose proof (infection_pass_spec (lp_surviving lp) [] g1) as (l' & Hl' & Hpass).
    destruct (infection_pass [] (lp_surviving lp) g1) as [survivors g2].
    simpl in Hl'. subst survivors. subst new.
    destruct (_ mod 5 =? 0).
    + rewrite Statistics_update_returns. simpl.
      split; [by repeat split|]. split; [done|]. split; [done|].
      exists (lp_surviving lp). by repeat split.
    + simpl. split; [by repeat split|]. split; [done|]. split; [done|].
      exists (lp_surviving lp). by repeat split.
  - simpl. split; [by repeat split|]. split; [done|]. split; [done|]. exact Hids.
Qed.
End TickAnatomy.

Lemma tick_identities_sublist `{MathLib} (sim : EpidemicSimulation) (g : Rng) :
  sublist (aid <$> agents (snd (fst (EpidemicSimulation_update sim g))))
          (aid <$> agents sim).
Proof.
  destruct (paused sim) eqn:Hp.
  - by rewrite (tick_paused sim g Hp).
  - pose proof (tick_anatomy sim g Hp) as (_ & _ & Hres).
    destruct (EpidemicSimulation_update sim g) as [[res sim'] g'].
    simpl in *. destruct res as [[]|e].
    + destruct Hres as (_ & surv & Hs & _ & _ & _ & Hpass).
      apply contact_step_counts in Hpass as (-> & _). exact Hs.
    + destruct Hres as (_ & ->). done.
Qed.

(** X14. A tick creates no agent and keeps the agents it leaves in order:
    whatever the outcome, the identities of the population after the tick
    are a sublist of those before it; distinct identities stay distinct. *)
Theorem tick_keeps_identities `{MathLib} (sim : EpidemicSimulation) (g : Rng) :
  let sim' := snd (fst (EpidemicSimulation_update sim g)) in
  sublist (aid <$> agents sim') (aid <$> agents sim) ∧
  (NoDup (aid <$> agents sim) → NoDup (aid <$> agents sim')).
Proof.
  pose proof (tick_identities_sublist sim g) as Hsub.
  split; [exact Hsub|].
  intros Hnd. by eapply sublist_NoDup.
Qed.

(** X15. Over a tick that ends normally the number of Immune agents is
    unchanged, the number of Recovered agents does not decrease and the
    number of Susceptible agents does not increase: Recovered and Immune
    agents are never removed and never leave their state. *)
Theorem compartments_over_a_tick `{MathLib}
    (sim sim' : EpidemicSimulation) (g g' : Rng) :
  EpidemicSimulation_update sim g = (Returned (), sim', g') →
  count_state IMMUNE (agents sim') = count_state IMMUNE (agents sim) ∧
  count_state RECOVERED (agents sim) ≤ count_state RECOVERED (agents sim') ∧
  count_state SUSCEPTIBLE (agents sim') ≤ count_state SUSCEPTIBLE (agents sim).
Proof.
  intros Hrun. destruct (paused sim) eqn:Hp.
  - rewrite (tick_paused sim g Hp) in Hrun. injection Hrun as <- _.
    repeat split; lia.
  - pose proof (tick_anatomy sim g Hp) as (_ & _ & Hres).
    rewrite Hrun in Hres. simpl in Hres.
    destruct Hres as (_ & surv & _ & Him & Hsu & Hre & Hpass).
    apply contact_step_counts in Hpass as (_ & Him' & Hre' & Hsu' & _).
    repeat split; lia.
Qed.

Lemma compartments_over_a_tick_witness :
  let sim' := snd (fst (@EpidemicSimulation_update approx_math two_agents halves)) in
  count_state IMMUNE (agents sim') = count_state IMMUNE (agents two_agents) ∧
  count_state RECOVERED (agents two_agents) ≤ count_state RECOVERED (agents sim') ∧
  count_state SUSCEPTIBLE (agents sim') ≤ count_state SUSCEPTIBLE (agents two_agents).
Proof.
  apply (@compartments_over_a_tick approx_math two_agents _ halves
           (snd (@EpidemicSimulation_update approx_math two_agents halves))).
  vm_compute. reflexivity.
Defined.

(** X16. No tick touches the settings: the zones, the three multipliers,
    the quarantine switch, the running and paused flags are the same after
    it; a running tick advances the frame count by exactly one.  The global
    RECOVERY_PROB is restored by a tick that ends normally, and is left at
    the effective value min(0.99, RECOVERY_PROB × multiplier) by a tick
    that ends in a raise. *)
Theorem tick_keeps_settings `{MathLib} (sim : EpidemicSimulation) (g : Rng) :
  let r := fst (EpidemicSimulation_update sim g) in
  settings_kept sim (snd r) ∧
  frame_count (snd r) = (if paused sim then frame_count sim else frame_count sim + 1) ∧
  match fst r with
  | Returned _ => global_RECOVERY_PROB (snd r) = global_RECOVERY_PROB sim
  | Raised _ => global_RECOVERY_PROB (snd r) = effective_recovery_prob sim
  end.
Proof.
  destruct (paused sim) eqn:Hp.
  - rewrite (tick_paused sim g Hp). simpl. by repeat split.
  - pose proof (tick_anatomy sim g Hp) as (Hk & Hf & Hres).
    split; [exact Hk|]. split; [exact Hf|].
    destruct (fst (fst (EpidemicSimulation_update sim g))); by destruct Hres.
Qed.

(** ** Reset and vaccination *)

Lemma vaccinated_refl a : vaccinated a a.
Proof. by left. Qed.

Lemma vaccinated_trans a b c : vaccinated a b → vaccinated b c → vaccinated a c.
Proof.
  intros [-> | [Hs ->]] [-> | [Hs' ->]]; try (by left); by right.
Qed.

Lemma vaccinate_vaccinated a g : vaccinated a (snd (fst (vaccinate a g))).
Proof.
  unfold vaccinate. destruct (decide _) as [Hs|Hn]; [|by left].
  rand_unfold. destruct (Qltb _ _); simpl; [by right | by left].
Qed.

Lemma Forall2_vaccinated_refl l : Forall2 vaccinated l l.
Proof. induction l; constructor; [apply vaccinated_refl | done]. Qed.

Lemma Forall2_vaccinated_trans l1 l2 l3 :
  Forall2 vaccinated l1 l2 → Forall2 vaccinated l2 l3 → Forall2 vaccinated l1 l3.
Proof.
  intros H12. revert l3. induction H12 as [|a b l1 l2 Hab _ IH]; intros l3 H23.
  - by inversion H23.
  - inversion H23 as [|? c ? l3' Hbc H23']; subst.
    constructor; [by eapply vaccinated_trans | by apply IH].
Qed.

Lemma Forall2_vaccinated_insert l i a a' :
  l !! i = Some a → vaccinated a a' → Forall2 vaccinated l (<[i := a']> l).
Proof.
  revert i. induction l as [|x l IH]; intros [|i] Hl Hv; simpl in *; try done.
  - injection Hl as ->. constructor; [done | apply Forall2_vaccinated_refl].
  - constructor; [apply vaccinated_refl | by apply IH].
Qed.

Lemma vaccinate_all_vaccinated chosen : ∀ store g,
  Forall2 vaccinated store (fst (vaccinate_all chosen store g)).
Proof.
  induction chosen as [|i rest IH]; intros store g; simpl.
  - apply Forall2_vaccinated_refl.
  - destruct (store !! i) as [agent|] eqn:E; [|apply IH].
    rand_unfold.
    pose proof (vaccinate_vaccinated agent g) as Hv.
    destruct (vaccinate agent g) as [[b agent'] g1]. simpl in Hv.
    eapply Forall2_vaccinated_trans; [|apply IH].
    by eapply Forall2_vaccinated_insert.
Qed.

Lemma count_state_insert st l i a' :
  count_state st (<[i := a']> l) ≤ count_state st l + 1.
Proof.
  revert i. induction l as [|x l IH]; intros [|i]; simpl; try lia.
  - rewrite !count_state_cons. repeat case_decide; lia.
  - rewrite !count_state_cons. specialize (IH i). lia.
Qed.

Lemma vaccinate_all_immune chosen : ∀ store g,
  count_state IMMUNE (fst (vaccinate_all chosen store g))
    ≤ count_state IMMUNE store + Z.of_nat (length chosen).
Proof.
  induction chosen as [|i rest IH]; intros store g; simpl; [lia|].
  destruct (store !! i) as [agent|] eqn:E.
  - rand_unfold. destruct (vaccinate agent g) as [[b agent'] g1].
    specialize (IH (<[i := agent']> store) g1).
    pose proof (count_state_insert IMMUNE store i agent'). lia.
  - specialize (IH store g). lia.
Qed.

(** What a round of vaccinations keeps. *)
Lemma vaccinated_counts l l' :
  Forall2 vaccinated l l' →
  length l' = length l ∧ aid <$> l' = aid <$> l ∧
  count_state INFECTED l' = count_state INFECTED l ∧
  count_state RECOVERED l' = count_state RECOVERED l ∧
  count_state SUSCEPTIBLE l' + count_state IMMUNE l'
    = count_state SUSCEPTIBLE l + count_state IMMUNE l ∧
  count_state IMMUNE l ≤ count_state IMMUNE l'.
Proof.
  induction 1 as [|a a' l l' Hv _ IH]; [by repeat split|].
  destruct IH as (Hlen & Hid & Hi & Hr & Hs & Hm).
  rewrite !fmap_cons, !count_state_cons. simpl length.
  destruct Hv as [-> | [Ha ->]].
  - rewrite Hid. repeat split; lia.
  - simpl. rewrite Hid, Ha. repeat split; repeat case_decide; try done; lia.
Qed.

Lemma sample_pool_length {A} (d : A) k : ∀ pool m g,
  length (fst (sample_pool d pool m k g)) = k.
Proof.
  induction k as [|k IH]; intros pool m g; simpl; [done|].
  unfold randbelow. rand_unfold. simpl.
  destruct (sample_pool _ _ _ k _) as [l g1] eqn:E.
  match type of E with sample_pool _ ?p ?m' k ?gg = _ =>
    pose proof (IH p m' gg) as Hl; rewrite E in Hl end.
  simpl in *. by rewrite Hl.
Qed.

Section ResetFacts.
Context `{MathLib}.

Lemma create_agents_spec n st : ∀ next acc g,
  ∃ new, fst (create_agents n st next acc g) = (acc ++ new, (next + n)%nat) ∧
         aid <$> new = seq next n ∧ Forall (fresh_agent st) new.
Proof.
  induction n as [|n IH]; intros next acc g; simpl.
  - exists []. rewrite app_nil_r, Nat.add_0_r. by repeat split.
  - unfold Agent_init, random_heading, uniform. rand_unfold. simpl.
    match goal with |- context [create_agents n st (S next) (acc ++ [?a]) ?gg] =>
      destruct (IH (S next) (acc ++ [a]) gg) as (new & -> & Hid & Hf);
      exists (a :: new) end.
    split; [f_equal; [by rewrite <- app_assoc | lia]|].
    split; [by rewrite fmap_cons, Hid|].
    constructor; [by repeat split | done].
Qed.
End ResetFacts.

Lemma count_state_fresh st st' l :
  Forall (fresh_agent st) l →
  count_state st' l = if decide (st = st') then Z.of_nat (length l) else 0.
Proof.
  induction 1 as [|a l Ha _ IH]; [by destruct (decide _)|].
  rewrite count_state_cons, IH. destruct Ha as (-> & _). simpl length.
  destruct (decide (st = st')); lia.
Qed.

Lemma vaccinated_keeps_rest l l' :
  Forall2 vaccinated l l' →
  Forall (fun a => infection_time a = 0 ∧ contact_time a = ∅ ∧
                   in_quarantine a = false ∧ quarantine_position a = None) l →
  Forall (fun a => infection_time a = 0 ∧ contact_time a = ∅ ∧
                   in_quarantine a = false ∧ quarantine_position a = None) l'.
Proof.
  induction 1 as [|a a' l l' Hv _ IH]; [done|].
  intros Hl. apply Forall_cons in Hl as [Ha Hl].
  constructor; [|by apply IH].
  by destruct Hv as [-> | [_ ->]].
Qed.

Section ResetContract.
Context `{MathLib}.

(** The population before the vaccination pass. *)
Lemma reset_population next g :
  ∃ l2,
    (let '(l1, id1, g1) :=
       create_agents (Z.to_nat (INITIAL_POPULATION - INITIAL_INFECTED)) SUSCEPTIBLE next [] g in
     fst (create_agents (Z.to_nat INITIAL_INFECTED) INFECTED id1 l1 g1))
      = (l2, (next + 200)%nat) ∧
    length l2 = 200%nat ∧ aid <$> l2 = seq next 200 ∧
    count_state INFECTED l2 = 5 ∧ count_state RECOVERED l2 = 0 ∧
    count_state SUSCEPTIBLE l2 = 195 ∧ count_state IMMUNE l2 = 0 ∧
    Forall (fun a => infection_time a = 0 ∧ contact_time a = ∅ ∧
                     in_quarantine a = false ∧ quarantine_position a = None) l2.
Proof.
  destruct (create_agents_spec (Z.to_nat (INITIAL_POPULATION - INITIAL_INFECTED))
              SUSCEPTIBLE next [] g) as (new1 & E1 & Hid1 & Hf1).
  destruct (create_agents _ SUSCEPTIBLE next [] g) as [[l1 id1] g1].
  simpl in E1. injection E1 as -> ->.
  destruct (create_agents_spec (Z.to_nat INITIAL_INFECTED) INFECTED
              (next + Z.to_nat (INITIAL_POPULATION - INITIAL_INFECTED)) new1 g1)
    as (new2 & E2 & Hid2 & Hf2).
  rewrite E2. exists (new1 ++ new2).
  assert (Hl1 : length new1 = 195%nat).
  { rewrite <- (length_fmap aid), Hid1, length_seq. reflexivity. }
  assert (Hl2 : length new2 = 5%nat).
  { rewrite <- (length_fmap aid), Hid2, length_seq. reflexivity. }
  split.
  { f_equal. change (Z.to_nat (INITIAL_POPULATION - INITIAL_INFECTED)) with 195%nat.
    change (Z.to_nat INITIAL_INFECTED) with 5%nat. lia. }
  split; [rewrite length_app; lia|].
  split.
  { rewrite fmap_app, Hid1, Hid2.
    change (Z.to_nat (INITIAL_POPULATION - INITIAL_INFECTED)) with 195%nat.
    change (Z.to_nat INITIAL_INFECTED) with 5%nat.
    change 200%nat with (195 + 5)%nat. by rewrite seq_app. }
  rewrite !count_state_app.
  rewrite !(count_state_fresh SUSCEPTIBLE _ new1 Hf1),
          !(count_state_fresh INFECTED _ new2 Hf2), Hl1, Hl2.
  repeat split; try done.
  apply Forall_app. split; eapply Forall_impl; try eassumption;
    by intros a (_ & ? & ? & ? & ? & _).
Qed.

Lemma reset_simulation_contract sim g :
  reset_contract sim (snd (fst (reset_simulation sim g))).
Proof.
  unfold reset_simulation. unfold mbind, rand_bind, mret, rand_ret.
  destruct (reset_population (next_id sim) g)
    as (l2 & E & Hlen & Hid & Hi & Hr & Hs & Hm & Hrest).
  change (next_id (set_frame_count _ _)) with (next_id sim).
  destruct (create_agents _ SUSCEPTIBLE (next_id sim) [] g) as [[l1 id1] g1].
  destruct (create_agents _ INFECTED id1 l1 g1) as [[l2' id2] g2].
  cbn [fst] in E. injection E as -> ->.
  pose proof (Z.le_max_l 0 (num_to_vaccinate sim)) as Hmax.
  destruct (random g2) as [r g3].
  change (vaccination_rate_multiplier (set_next_id _ _))
    with (vaccination_rate_multiplier sim).
  change (agents (set_next_id (set_agents _ l2) _)) with l2.
  fold (num_to_vaccinate sim).
  assert (Hbase : ∀ s, agents s = l2 → next_id s = (next_id sim + 200)%nat →
            statistics s = Statistics_init 500 → frame_count s = 0 →
            settings_kept sim (set_next_id s (next_id sim)) →
            global_RECOVERY_PROB s = global_RECOVERY_PROB sim →
            reset_contract sim s).
  { intros s Ha Hn Hst Hf (? & ? & ? & ? & ? & ? & ? & _) Hg.
    unfold reset_contract. rewrite Ha, Hi, Hr, Hs, Hm.
    repeat split; try done; lia. }
  destruct (Qltb r _).
  - unfold sample. unfold mbind, rand_bind, mret, rand_ret.
    set (susc := indices_in_state SUSCEPTIBLE l2).
    set (k := Z.min (num_to_vaccinate sim) (Z.of_nat (length susc))).
    destruct (Z.ltb_spec k 0) as [Hk|Hk]; cbn [orb].
    { apply Hbase; try done; by repeat split. }
    destruct (Z.ltb_spec (Z.of_nat (length susc)) k) as [Hk'|Hk'].
    { apply Hbase; try done; by repeat split. }
    pose proof (sample_pool_length 0%nat (Z.to_nat k) susc (length susc) g3) as Hsl.
    destruct (sample_pool 0%nat susc (length susc) (Z.to_nat k) g3) as [chosen g4].
    cbn [fst] in Hsl.
    pose proof (vaccinate_all_vaccinated chosen l2 g4) as Hv.
    pose proof (vaccinate_all_immune chosen l2 g4) as Hb.
    destruct (vaccinate_all chosen l2 g4) as [l3 g5]. cbn [fst snd] in *.
    pose proof (vaccinated_keeps_rest _ _ Hv Hrest) as Hrest'.
    apply vaccinated_counts in Hv as (Hlen' & Hid' & Hi' & Hr' & Hs' & Hm').
    unfold reset_contract.
    change (agents (set_agents _ l3)) with l3.
    rewrite Hlen', Hid', Hi', Hr', Hs'.
    repeat split; try done; lia.
  - apply Hbase; try done; by repeat split.
Qed.
End ResetContract.

(** X17. Whatever the draws, the settings and the rounding of the float
    product, and whether it returns or raises, [reset_simulation] leaves
    200 newly created agents with pairwise distinct identities, 5 of them
    Infected, none Recovered and the other 195 Susceptible or Immune, at
    most max(0, int(200 * 0.3 * vaccination multiplier)) of them Immune,
    the product being the float product; every agent has infection time 0,
    no contact entry and no quarantine data; the statistics are fresh, the
    frame count is 0 and the zones, the multipliers and the flags are as
    before. *)
Theorem reset_gives_the_initial_population `{MathLib}
    (sim : EpidemicSimulation) (g : Rng) :
  reset_leaves sim (snd (fst (reset_simulation sim g))).
Proof.
  pose proof (reset_simulation_contract sim g)
    as (Hlen & Hid & _ & Hi & Hr & Hs & Hm & Hrest & Hst & Hf & Hsettings).
  unfold reset_leaves.
  split; [exact Hlen|]. split; [rewrite Hid; apply NoDup_seq|].
  split; [exact Hi|]. split; [exact Hr|]. split; [exact Hs|]. split; [exact Hm|].
  split; [exact Hrest|]. split; [exact Hst|]. split; [exact Hf|]. exact Hsettings.
Qed.

(** ** Events and the main loop *)

Lemma vaccinate_some_vaccinated chosen rate : ∀ store g,
  Forall2 vaccinated store (fst (vaccinate_some chosen rate store g)).
Proof.
  induction chosen as [|i rest IH]; intros store g; simpl.
  - apply Forall2_vaccinated_refl.
  - destruct (store !! i) as [agent|] eqn:E; [|apply IH].
    rand_unfold. destruct (Qltb _ rate); [|apply IH].
    match goal with |- context [vaccinate agent ?gg] =>
      pose proof (vaccinate_vaccinated agent gg) as Hv;
      destruct (vaccinate agent gg) as [[b agent'] g1] end.
    simpl in Hv.
    eapply Forall2_vaccinated_trans; [|apply IH].
    by eapply Forall2_vaccinated_insert.
Qed.

Lemma Qmin_2_in_range (lo m : Q) :
  (lo <= 2)%Q → (lo <= m)%Q → (lo <= Qmin 2 (m + (1 # 10)))%Q ∧ (Qmin 2 (m + (1 # 10)) <= 2)%Q.
Proof.
  intros Hlo Hm. split; [|apply Qmin_le_l].
  apply Qmin_glb; [done | lra].
Qed.

Lemma Qmax_lo_in_range (lo m : Q) :
  (lo <= 2)%Q → (m <= 2)%Q → (lo <= Qmax lo (m - (1 # 10)))%Q ∧ (Qmax lo (m - (1 # 10)) <= 2)%Q.
Proof.
  intros Hlo Hm. split; [apply Qmax_ge_l|].
  apply Qmax_lub; [done | lra].
Qed.

Section EventFacts.
Context `{MathLib}.

Lemma load_scenario_contract sim k g :
  let sim' := snd (fst (load_scenario sim k g)) in
  agents sim' = agents (snd (fst (reset_simulation sim g))) ∧
  (multipliers_in_range sim → multipliers_in_range sim').
Proof.
  unfold load_scenario. unfold mbind, rand_bind, mret, rand_ret.
  pose proof (reset_simulation_contract sim g) as Hc.
  destruct (reset_simulation sim g) as [[res s] g']. cbn [fst snd] in *.
  assert (Hs : multipliers_in_range sim → multipliers_in_range s).
  { unfold multipliers_in_range.
    destruct Hc as (_&_&_&_&_&_&_&_&_&_&_& -> & -> & -> & _). done. }
  destruct res as [[]|e]; [|done].
  destruct (k =? 1); [split; [done|]; intros _; by vm_compute|].
  destruct (k =? 2); [split; [done|]; intros _; by vm_compute|].
  done.
Qed.

(** One event: the population is reset, or vaccinated in place, or left
    alone; the multipliers stay in range. *)
Lemma handle_event_spec sim event g :
  let sim' := snd (fst (handle_event sim event g)) in
  (multipliers_in_range sim → multipliers_in_range sim') ∧
  (population_ok sim → population_ok sim').
Proof.
  assert (Hreset : population_ok (snd (fst (reset_simulation sim g)))).
  { pose proof (reset_simulation_contract sim g) as (Hlen & Hid & _).
    split; [lia | rewrite Hid; apply NoDup_seq]. }
  assert (Hkeep : multipliers_in_range sim →
                  multipliers_in_range (snd (fst (reset_simulation sim g)))).
  { unfold multipliers_in_range.
    pose proof (reset_simulation_contract sim g)
      as (_&_&_&_&_&_&_&_&_&_&_& -> & -> & -> & _).
    intros Hx. exact Hx. }
  destruct event as [|key|];
    [split; intros Hx; exact Hx | | split; intros Hx; exact Hx].
  destruct key; cbn [handle_event]; unfold mret, rand_ret; cbn [fst snd].
  - (* K_SPACE *) split; intros Hx; exact Hx.
  - (* K_r *) split; [exact Hkeep | intros _; exact Hreset].
  - (* K_q *) split; intros Hx; exact Hx.
  - (* K_UP *)
    split; [|intros Hx; exact Hx]. unfold multipliers_in_range. simpl.
    intros (? & ? & ? & ? & ? & ?).
    destruct (Qmin_2_in_range (1 # 10) (infection_prob_multiplier sim)); [lra | done |].
    by repeat split.
  - (* K_DOWN *)
    split; [|intros Hx; exact Hx]. unfold multipliers_in_range. simpl.
    intros (? & ? & ? & ? & ? & ?).
    destruct (Qmax_lo_in_range (1 # 10) (infection_prob_multiplier sim)); [lra | done |].
    by repeat split.
  - (* K_RIGHT *)
    split; [|intros Hx; exact Hx]. unfold multipliers_in_range. simpl.
    intros (? & ? & ? & ? & ? & ?).
    destruct (Qmin_2_in_range (1 # 10) (recovery_prob_multiplier sim)); [lra | done |].
    by repeat split.
  - (* K_LEFT *)
    split; [|intros Hx; exact Hx]. unfold multipliers_in_range. simpl.
    intros (? & ? & ? & ? & ? & ?).
    destruct (Qmax_lo_in_range (1 # 10) (recovery_prob_multiplier sim)); [lra | done |].
    by repeat split.
  - (* K_w *)
    split; [|intros Hx; exact Hx]. unfold multipliers_in_range. simpl.
    intros (? & ? & ? & ? & ? & ?).
    destruct (Qmin_2_in_range 0 (vaccination_rate_multiplier sim)); [lra | done |].
    by repeat split.
  - (* K_s *)
    split; [|intros Hx; exact Hx]. unfold multipliers_in_range. simpl.
    intros (? & ? & ? & ? & ? & ?).
    destruct (Qmax_lo_in_range 0 (vaccination_rate_multiplier sim)); [lra | done |].
    by repeat split.
  - (* K_1 *)
    pose proof (load_scenario_contract sim 1 g) as (Ha & Hm).
    split; [exact Hm|]. intros _. unfold population_ok. rewrite Ha. exact Hreset.
  - (* K_2 *)
    pose proof (load_scenario_contract sim 2 g) as (Ha & Hm).
    split; [exact Hm|]. intros _. unfold population_ok. rewrite Ha. exact Hreset.
  - (* K_v *)
    unfold mbind, rand_bind.
    match goal with |- context [vaccinate_some ?c ?r ?s g] =>
      pose proof (vaccinate_some_vaccinated c r s g) as Hv;
      destruct (vaccinate_some c r s g) as [l g1] end.
    cbn [fst snd] in *. split; [intros Hx; exact Hx|].
    apply vaccinated_counts in Hv as (Hlen & Hid & _).
    unfold population_ok. cbn [agents set_agents]. by rewrite Hlen, Hid.
  - (* K_other *) split; intros Hx; exact Hx.
Qed.

Lemma handle_events_spec events : ∀ sim g,
  let sim' := snd (fst (handle_events sim events g)) in
  (multipliers_in_range sim → multipliers_in_range sim') ∧
  (population_ok sim → population_ok sim').
Proof.
  induction events as [|event rest IH]; intros sim g; [by split|].
  cbn [handle_events]. unfold mbind, rand_bind, mret, rand_ret.
  pose proof (handle_event_spec sim event g) as (Hm & Hp).
  destruct (handle_event sim event g) as [[res s] g1]. cbn [fst snd] in *.
  destruct res as [[]|e]; [|by split].
  destruct (IH s g1) as (Hm' & Hp'). split; auto.
Qed.
End EventFacts.

(** X18. Whatever the events, [handle_events] keeps the multipliers in
    their ranges: infection and recovery multipliers within [0.1, 2.0], the
    vaccination multiplier within [0.0, 2.0]; key presses clamp and the
    scenarios assign values of these ranges. *)
Theorem events_keep_multipliers_in_range `{MathLib}
    (sim : EpidemicSimulation) (events : list Event) (g : Rng) :
  multipliers_in_range sim →
  multipliers_in_range (snd (fst (handle_events sim events g))).
Proof. apply handle_events_spec. Qed.

Lemma events_keep_multipliers_in_range_witness :
  multipliers_in_range
    (snd (fst (@handle_events approx_math fresh_simulation key_burst halves))).
Proof.
  apply (@events_keep_multipliers_in_range approx_math).
  vm_compute. repeat split; discriminate.
Defined.

(** X19. Key V vaccinates in place: the event returns normally, every
    agent is either unchanged or taken from Susceptible to Immune with
    nothing else changed, in the same order; the numbers of Infected and of
    Recovered agents, the statistics, the frame count and the settings are
    as before. *)
Theorem vaccination_on_demand `{MathLib} (sim : EpidemicSimulation) (g : Rng) :
  let r := fst (handle_event sim (KEYDOWN K_v) g) in
  fst r = Returned () ∧
  Forall2 vaccinated (agents sim) (agents (snd r)) ∧
  count_state INFECTED (agents (snd r)) = count_state INFECTED (agents sim) ∧
  count_state RECOVERED (agents (snd r)) = count_state RECOVERED (agents sim) ∧
  statistics (snd r) = statistics sim ∧ frame_count (snd r) = frame_count sim ∧
  settings_kept sim (snd r).
Proof.
  cbn [handle_event]. unfold mbind, rand_bind, mret, rand_ret.
  match goal with |- context [vaccinate_some ?c ?r ?s g] =>
    pose proof (vaccinate_some_vaccinated c r s g) as Hv;
    destruct (vaccinate_some c r s g) as [l g1] end.
  cbn [fst snd] in *.
  pose proof (vaccinated_counts _ _ Hv) as (_ & _ & Hi & Hr & _).
  by repeat split.
Qed.

Section LoopFacts.
Context `{MathLib}.

Lemma tick_settings_kept sim g :
  settings_kept sim (snd (fst (EpidemicSimulation_update sim g))).
Proof.
  destruct (paused sim) eqn:Hp.
  - rewrite (tick_paused sim g Hp). by repeat split.
  - by destruct (tick_anatomy sim g Hp) as (Hk & _).
Qed.

Lemma tick_population_ok sim g :
  population_ok sim → population_ok (snd (fst (EpidemicSimulation_update sim g))).
Proof.
  intros [Hlen Hnd].
  pose proof (tick_identities_sublist sim g) as Hsub.
  split; [|by eapply sublist_NoDup].
  apply sublist_length in Hsub. rewrite !length_fmap in Hsub. lia.
Qed.

Lemma tick_multipliers sim g :
  multipliers_in_range sim →
  multipliers_in_range (snd (fst (EpidemicSimulation_update sim g))).
Proof.
  unfold multipliers_in_range.
  destruct (tick_settings_kept sim g) as (_ & -> & -> & -> & _).
  intros Hx. exact Hx.
Qed.

Lemma run_invariant frames : ∀ sim g,
  population_ok sim → multipliers_in_range sim →
  population_ok (snd (fst (run sim frames g))) ∧
  multipliers_in_range (snd (fst (run sim frames g))).
Proof.
  induction frames as [|events rest IH]; intros sim g Hp Hm; [by split|].
  cbn [run]. destruct (running sim); [|by split].
  unfold mbind, rand_bind, mret, rand_ret.
  pose proof (handle_events_spec events sim g) as (Hm1 & Hp1).
  destruct (handle_events sim events g) as [[res s1] g1]. cbn [fst snd] in *.
  specialize (Hm1 Hm). specialize (Hp1 Hp).
  destruct res as [[]|e]; [|by split].
  pose proof (tick_population_ok s1 g1 Hp1) as Hp2.
  pose proof (tick_multipliers s1 g1 Hm1) as Hm2.
  destruct (EpidemicSimulation_update s1 g1) as [[res s2] g2]. cbn [fst snd] in *.
  destruct res as [[]|e]; [|by split].
  by apply IH.
Qed.
End LoopFacts.

(** X20. The main loop keeps the simulation well formed: started with at
    most 200 agents under pairwise distinct identities and with the
    multipliers in range, it has, after any number of frames, whatever the
    events and the draws and whether it stops by QUIT or by a raise, at
    most 200 agents under pairwise distinct identities and the multipliers
    in range. *)
Theorem run_keeps_simulation_well_formed `{MathLib}
    (sim : EpidemicSimulation) (frames : list (list Event)) (g : Rng) :
  population_ok sim → multipliers_in_range sim →
  population_ok (snd (fst (run sim frames g))) ∧
  multipliers_in_range (snd (fst (run sim frames g))).
Proof. apply run_invariant. Qed.

Lemma run_keeps_simulation_well_formed_witness :
  population_ok (snd (fst (@run approx_math two_agents short_session halves))) ∧
  multipliers_in_range (snd (fst (@run approx_math two_agents short_session halves))).
Proof.
  apply (@run_keeps_simulation_well_formed approx_math).
  - split; [simpl; lia|]. apply (bool_decide_unpack _). vm_compute. reflexivity.
  - vm_compute. repeat split; discriminate.
Defined.

(** X21. Recovery is never certain: the effective recovery probability is
    capped at 0.99 whatever the recovery multiplier, so an Infected agent
    whose trial is due dies on a draw of at least 0.99.  When that agent
    is the first of the population, the tick counts at least one death more
    and, on a normal end, the agent is no longer in the population. *)
Theorem recovery_is_never_certain `{MathLib}
    (sim : EpidemicSimulation) (a : Agent) (rest : list Agent) (g : Rng) :
  paused sim = false → agents sim = a :: rest →
  state a = INFECTED → RECOVERY_TIME ≤ infection_time a + 1 →
  ((99 # 100) <= rng_draws g (rng_pos g))%Q →
  let r := fst (EpidemicSimulation_update sim g) in
  death_count (statistics sim) + 1 ≤ death_count (statistics (snd r)) ∧
  (fst r = Returned () → NoDup (aid <$> agents sim) → aid a ∉ aid <$> agents (snd r)).
Proof.
  intros Hp Hag Hi Ht Hdraw.
  unfold EpidemicSimulation_update. rewrite Hp.
  unfold mbind, rand_bind, mret, rand_ret.
  change (agents (set_frame_count sim _)) with (agents sim). rewrite Hag.
  match goal with |- context [update_agents ?z ?e ?p ?s (a :: rest) g] =>
    set (zones := z); set (enable := e); set (eff := p) end.
  assert (Heff : Qltb (rng_draws g (rng_pos g)) eff = false).
  { apply Qltb_ge. eapply Qle_trans; [apply Qmin_le_l | exact Hdraw]. }
  cbn [update_agents]. unfold mbind, rand_bind, mret, rand_ret.
  rewrite update_unfold.
  destruct (decide (state a = INFECTED)) as [_|?]; [|done].
  cbv zeta. destruct (Z.leb_spec RECOVERY_TIME (infection_time a + 1)); [|lia].
  rewrite Heff.
  match goal with |- context [update_agents zones enable eff ?s rest ?gg] =>
    pose proof (update_agents_spec zones enable eff rest s gg)
      as (res & lp & rest' & g1 & d & E & Hd & Hst & _);
    pose proof (update_agents_survivors zones enable eff rest s gg)
      as (new & Hnew & Hsub & _)
  end.
  rewrite E in Hnew |- *. cbn [fst snd lp_surviving lp_statistics app] in *.
  assert (Hdc : death_count (lp_statistics lp) = death_count (statistics sim) + 1 + d).
  { rewrite Hst. reflexivity. }
  destruct res as [[]|err].
  - pose proof (infection_pass_spec (lp_surviving lp) [] g1) as (l' & Hl' & Hpass).
    destruct (infection_pass [] (lp_surviving lp) g1) as [survivors g2].
    cbn [fst app] in Hl'. subst survivors.
    apply contact_step_counts in Hpass as (Hids & _).
    assert (Hgone : NoDup (aid <$> a :: rest) → aid a ∉ aid <$> l').
    { rewrite fmap_cons. intros Hnd Hin. apply NoDup_cons in Hnd as [Hfresh _].
      apply Hfresh. rewrite Hids, Hnew in Hin. by eapply elem_of_sublist. }
    cbn [agents set_agents statistics set_statistics frame_count set_frame_count].
    destruct (_ mod 5 =? 0).
    + rewrite Statistics_update_returns. cbn [fst snd agents statistics set_statistics
        set_agents death_count record_rates append_counts].
      split; [lia|]. intros _. exact Hgone.
    + cbn [fst snd agents statistics set_statistics set_agents].
      split; [lia|]. intros _. exact Hgone.
  - cbn [fst snd statistics set_statistics set_global_RECOVERY_PROB].
    split; [lia | discriminate].
Qed.

Lemma recovery_is_never_certain_witness :
  let sim := set_scenario (simulation_of [due] []) 1 2 1 false in
  let r := fst (@EpidemicSimulation_update approx_math sim (constant_draws (995 # 1000))) in
  recovery_prob_multiplier sim = 2%Q ∧
  death_count (statistics sim) + 1 ≤ death_count (statistics (snd r)) ∧
  (fst r = Returned () → NoDup (aid <$> agents sim) → aid due ∉ aid <$> agents (snd r)).
Proof.
  intros sim r. split; [reflexivity|].
  apply (@recovery_is_never_certain approx_math sim due []).
  - reflexivity.
  - reflexivity.
  - reflexivity.
  - vm_compute. discriminate.
  - vm_compute. discriminate.
Defined.

(** ** Creation, infection and the recovery counter *)

(** X22. [Agent.__init__] places the new agent in the box 50 units inside
    the canvas when its first two draws are in the unit interval, and gives
    it the requested state and identity, infection time 0, no contact
    entry and no quarantine data. *)
Theorem new_agent_inside_spawn_box `{MathLib} (new_id : nat) (st : AgentState) (g : Rng) :
  unit_draws g 2 →
  let a := fst (Agent_init new_id st g) in
  in_spawn_box (position a) ∧ aid a = new_id ∧ fresh_agent st a.
Proof.
  intros Hu.
  destruct (Hu 0%nat) as [H00 H01]; [lia|].
  destruct (Hu 1%nat) as [H10 H11]; [lia|].
  rewrite Nat.add_0_r in H00, H01. rewrite Nat.add_1_r in H10, H11.
  pose proof (uniform_between 50 (WIDTH - 50) g) as Bx.
  pose proof (uniform_between 50 (HEIGHT - GRAPH_HEIGHT - 50) (next_draw g)) as By.
  destruct Bx as [Bx1 Bx2]; [by vm_compute | done | done |].
  destruct By as [By1 By2]; [by vm_compute | done | done |].
  split; [|by repeat split].
  unfold in_spawn_box. by repeat split.
Qed.

Lemma new_agent_inside_spawn_box_witness :
  let a := fst (@Agent_init approx_math 0 SUSCEPTIBLE halves) in
  in_spawn_box (position a) ∧ aid a = 0%nat ∧ fresh_agent SUSCEPTIBLE a.
Proof.
  apply (@new_agent_inside_spawn_box approx_math).
  intros i _.
  assert (E : rng_draws halves (rng_pos halves + i) = (1 # 2)%Q)
    by (simpl; destruct i; reflexivity).
  rewrite E. split; vm_compute; discriminate.
Defined.

Section InfectionPath.
Context `{MathLib}.

End InfectionPath.



(** X24. The cumulative recovery counter is exact.  A reset leaves it in
    agreement with the last sample; a tick that ends normally keeps that
    agreement, and at every sample the counter equals the number of
    Recovered agents in the population (Recovered agents never leave, so
    the clamped delta loses nothing). *)
Theorem recovery_counter_is_exact `{MathLib} :
  (∀ sim g, recoveries_tracked (snd (fst (reset_simulation sim g)))) ∧
  (∀ sim sim' g g',
     EpidemicSimulation_update sim g = (Returned (), sim', g') →
     recoveries_tracked sim →
     recoveries_tracked sim' ∧
     (paused sim = false → (frame_count sim + 1) mod 5 = 0 →
      total_recoveries (statistics sim') = count_state RECOVERED (agents sim'))).
Proof.
  split.
  - intros sim g.
    pose proof (reset_simulation_contract sim g)
      as (_ & _ & _ & _ & Hr & _ & _ & _ & Hst & _).
    unfold recoveries_tracked. rewrite Hst, Hr. simpl. lia.
  - intros sim sim' g g' Hrun [Htot Hprev].
    destruct (paused sim) eqn:Hp.
    { rewrite (tick_paused sim g Hp) in Hrun. injection Hrun as <- _.
      split; [by split | discriminate]. }
    pose proof (tick_anatomy sim g Hp) as (_ & _ & Hres).
    destruct (tick_running sim g Hp)
      as (res0 & sim0 & g0 & d & Heq & _ & _ & Hfc & _ & Hret & _).
    rewrite Hrun in Hres, Heq. injection Heq as <- <- <-.
    cbn [fst snd] in Hres.
    destruct Hres as (_ & surv & _ & _ & _ & Hre & Hpass).
    apply contact_step_counts in Hpass as (_ & _ & Hre' & _).
    destruct (Hret eq_refl) as [_ Hst].
    rewrite Hfc in Hst.
    destruct (Z.eqb_spec ((frame_count sim + 1) mod 5) 0) as [Hmod|Hmod].
    + rewrite Statistics_update_returns in Hst. cbn [snd] in Hst.
      assert (Hexact : total_recoveries (statistics sim')
                       = count_state RECOVERED (agents sim')).
      { rewrite Hst. cbn [total_recoveries record_rates append_counts with_deaths].
        unfold new_recoveries_of. cbn [prev_recovered with_deaths].
        destruct (Z.ltb_spec 0 (Z.max 0 (count_state RECOVERED (agents sim')
                                         - prev_recovered (statistics sim)))); lia. }
      split; [|intros _ _; exact Hexact].
      unfold recoveries_tracked. rewrite Hexact, Hst.
      cbn [prev_recovered record_rates]. lia.
    + split; [|intros _ ?; contradiction].
      unfold recoveries_tracked. rewrite Hst.
      cbn [total_recoveries prev_recovered with_deaths]. lia.
Qed.

Lemma recovery_counter_is_exact_witness :
  let sim' := snd (fst (@EpidemicSimulation_update approx_math before_sample halves)) in
  count_state RECOVERED (agents before_sample) = 1 ∧
  total_recoveries (statistics before_sample) = 0 ∧
  total_recoveries (statistics sim') = count_state RECOVERED (agents sim').
Proof.
  intros sim'. split; [reflexivity|]. split; [reflexivity|].
  destruct (@recovery_counter_is_exact approx_math) as [_ Htick].
  destruct (Htick before_sample sim' halves
              (snd (@EpidemicSimulation_update approx_math before_sample halves)))
    as [_ Hexact].
  - vm_compute. reflexivity.
  - split; [reflexivity | vm_compute; discriminate].
  - apply Hexact; reflexivity.
Defined.

Lemma sample_counts_partition_witness :
  let self' := snd (Statistics_update (Statistics_init 500) [alice; bob]) in
  last (susceptible_history self') = Some 1 ∧
  last (infected_history self') = Some 1 ∧
  last (recovered_history self') = Some 0 ∧
  last (immune_history self') = Some 0.
Proof.
  destruct (sample_counts_partition (Statistics_init 500) [alice; bob]) as [_ Hlast].
  apply Hlast. simpl. lia.
Defined.

Lemma tick_keeps_identities_witness :
  NoDup (aid <$> agents (snd (fst (@EpidemicSimulation_update approx_math
                                     two_agents halves)))).
Proof.
  destruct (@tick_keeps_identities approx_math two_agents halves) as [_ Hnd].
  apply Hnd. apply (bool_decide_unpack _). vm_compute. reflexivity.
Defined.
